(** * pipecheetah: the server frame codec, the WAV dump and the client streamer

    A shallow embedding of [bot.py] ([RawPCMSerializer], [save_audio]) and of
    [client/python/test_client.py] ([audio_stream]) together with the parts of
    the Python standard library they call ([json.loads], [wave], [struct],
    [io.BytesIO], [asyncio.Queue]).

    Conventions.
    - A Python [str] is a Rocq [string] holding its UTF-8 encoding; a Python
      [bytes] or [bytearray] is a [list byte].
    - Python integers are [Z]; a JSON real is kept as the exact decimal
      [m * 10^e] it was written as.
    - The interpreter limits that bear on [json.loads], the recursion depth
      left at the call and the integer digit limit, are a parameter
      [py : interpreter] of the decoder and of everything that calls it. *)

From Stdlib Require Import ZArith NArith List String Ascii Bool Lia.
From Stdlib.Strings Require Import Byte.
From stdpp Require Import gmap strings list fin_maps pretty.

Set Warnings "-register-all".

Local Open Scope string_scope.
Local Open Scope Z_scope.
Local Open Scope list_scope.

(** ** Python values *)

Module Py.

Inductive float_const : Type := NaN | PosInf | NegInf.

(** The values [json.loads] can build.  A [PyDict] keeps its items in
    insertion order and holds every key once. *)
Inductive pyval : Type :=
| PyNone
| PyBool (b : bool)
| PyInt (z : Z)
| PyFloat (m e : Z)
| PyFloatConst (c : float_const)
| PyStr (s : string)
| PyList (l : list pyval)
| PyDict (items : list (string * pyval)).

(** [d[k] = v]: an existing key keeps its place and takes the new value, a new
    key goes to the end. *)
Fixpoint dict_setitem (k : string) (v : pyval) (d : list (string * pyval))
  : list (string * pyval) :=
  match d with
  | [] => [(k, v)]
  | (k', v') :: d' =>
      if String.eqb k k' then (k, v) :: d' else (k', v') :: dict_setitem k v d'
  end.

(** [d.get(k)]: [None] stands for Python's [None] default. *)
Fixpoint dict_get (d : list (string * pyval)) (k : string) : option pyval :=
  match d with
  | [] => None
  | (k', v) :: d' => if String.eqb k k' then Some v else dict_get d' k
  end.

(** [d.get(k, default)] *)
Definition dict_get_default (d : list (string * pyval)) (k : string)
  (default : pyval) : pyval :=
  match dict_get d k with
  | Some v => v
  | None => default
  end.

(** A decimal [m * 10^e] rounds to the binary64 zero exactly when it is zero or
    at most half the least subnormal, [2^-1075]. *)
Definition float_is_zero (m e : Z) : bool :=
  (m =? 0) || ((e <? 0) && (Z.abs m * 2 ^ 1075 <=? 10 ^ (- e))).

(** Truth value testing, as [bool(v)] does it. *)
Definition truthy (v : pyval) : bool :=
  match v with
  | PyNone => false
  | PyBool b => b
  | PyInt z => negb (z =? 0)
  | PyFloat m e => negb (float_is_zero m e)
  | PyFloatConst _ => true
  | PyStr s => negb (String.eqb s "")
  | PyList l => match l with [] => false | _ => true end
  | PyDict d => match d with [] => false | _ => true end
  end.

(** [a or b] *)
Definition py_or (a b : pyval) : pyval := if truthy a then a else b.

(** [v == "..."] for a string literal on the right. *)
Definition eq_str (v : option pyval) (lit : string) : bool :=
  match v with
  | Some (PyStr s) => String.eqb s lit
  | _ => false
  end.

Definition is_dict (v : pyval) : bool :=
  match v with PyDict _ => true | _ => false end.

(** The exceptions that occur in the modelled code. *)
Inductive exn : Type :=
| JSONDecodeError
| RecursionError
| AttributeError
| WaveError (msg : string)
| StructError
| QueueFull
| QueueEmpty
| ValueError
| CancelledError
| KeyboardInterrupt
| ConnectionClosedOK
| ConnectionClosedError.

(** What a call does: return a value or raise. *)
Inductive result (A : Type) : Type :=
| Return (a : A)
| Raise (e : exn).
Arguments Return {A} a.
Arguments Raise {A} e.

(** The interpreter limits that bear on decoding.  [depth_left] is how many
    containers deep [json.loads] may go when it is called: what the frames
    already on the stack leave of [sys.getrecursionlimit()].
    [int_max_str_digits] is [sys.get_int_max_str_digits()], the longest
    decimal integer literal that is converted; 0 switches the limit off. *)
Record interpreter : Type := Interpreter {
  depth_left : nat;
  int_max_str_digits : nat
}.

(** CPython as shipped: a recursion limit of 1000, of which ten frames are
    taken to be in use when [json.loads] is called, and 4300 digits. *)
Definition cpython : interpreter := Interpreter 990 4300.

End Py.
Export Py.

(** ** [json.loads]

    The decoder of Python's [json] module in its default configuration:
    strict strings, the constants [NaN], [Infinity] and [-Infinity] accepted,
    whitespace limited to space, tab, line feed and carriage return. *)

Module Json.

Definition code (c : ascii) : Z := Z.of_N (N_of_ascii c).

Definition chr (z : Z) : ascii := ascii_of_N (Z.to_N z).

Definition is_ws (c : ascii) : bool :=
  (code c =? 32) || (code c =? 9) || (code c =? 10) || (code c =? 13).

Definition is_digit (c : ascii) : bool := (48 <=? code c) && (code c <=? 57).

Definition digit_val (c : ascii) : Z := code c - 48.

Definition hex_val (c : ascii) : option Z :=
  let n := code c in
  if (48 <=? n) && (n <=? 57) then Some (n - 48)
  else if (65 <=? n) && (n <=? 70) then Some (n - 55)
  else if (97 <=? n) && (n <=? 102) then Some (n - 87)
  else None.

Fixpoint skip_ws (s : string) : string :=
  match s with
  | String c s' => if is_ws c then skip_ws s' else s
  | EmptyString => s
  end.

(** [s.startswith(lit)], returning what follows the literal. *)
Fixpoint strip_prefix (lit s : string) : option string :=
  match lit, s with
  | EmptyString, _ => Some s
  | String a lit', String b s' =>
      if Ascii.eqb a b then strip_prefix lit' s' else None
  | String _ _, EmptyString => None
  end.

(** The UTF-8 encoding of a code point; a lone surrogate is encoded like any
    other three-byte code point. *)
Definition utf8 (u : Z) : string :=
  if u <? 128 then String (chr u) ""
  else if u <? 2048 then
    String (chr (192 + u / 64)) (String (chr (128 + u mod 64)) "")
  else if u <? 65536 then
    String (chr (224 + u / 4096))
      (String (chr (128 + (u / 64) mod 64)) (String (chr (128 + u mod 64)) ""))
  else
    String (chr (240 + u / 262144))
      (String (chr (128 + (u / 4096) mod 64))
         (String (chr (128 + (u / 64) mod 64))
            (String (chr (128 + u mod 64)) ""))).

(** Four hexadecimal digits ([_decode_uXXXX]). *)
Definition hex4 (a b c d : ascii) : option Z :=
  match hex_val a, hex_val b, hex_val c, hex_val d with
  | Some x, Some y, Some z, Some w => Some (((x * 16 + y) * 16 + z) * 16 + w)
  | _, _, _, _ => None
  end.

Definition is_high_surrogate (u : Z) : bool := (55296 <=? u) && (u <=? 56319).
Definition is_low_surrogate (u : Z) : bool := (56320 <=? u) && (u <=? 57343).

Definition simple_escape (c : ascii) : option ascii :=
  let n := code c in
  if n =? 34 then Some (chr 34)          (* quote *)
  else if n =? 92 then Some (chr 92)     (* backslash *)
  else if n =? 47 then Some (chr 47)     (* slash *)
  else if n =? 98 then Some (chr 8)      (* b: backspace *)
  else if n =? 102 then Some (chr 12)    (* f: form feed *)
  else if n =? 110 then Some (chr 10)    (* n: line feed *)
  else if n =? 114 then Some (chr 13)    (* r: carriage return *)
  else if n =? 116 then Some (chr 9)     (* t: tab *)
  else None.

(** [scanstring]: the text after an opening quote, up to the closing one.
    [None] is a [JSONDecodeError]. *)
Fixpoint scanstring (s : string) : option (string * string) :=
  match s with
  | EmptyString => None
  | String c s1 =>
      if code c =? 34 then Some ("", s1)
      else if code c <? 32 then None
      else if code c =? 92 then
        match s1 with
        | EmptyString => None
        | String e s2 =>
            if code e =? 117 then
              match s2 with
              | String h1 (String h2 (String h3 (String h4 s3))) =>
                  match hex4 h1 h2 h3 h4 with
                  | None => None
                  | Some u =>
                      let lone :=
                        match scanstring s3 with
                        | Some (t, rest) => Some ((utf8 u ++ t)%string, rest)
                        | None => None
                        end in
                      if is_high_surrogate u then
                        match s3 with
                        | String b1 (String b2 s4) =>
                            if (code b1 =? 92) && (code b2 =? 117) then
                              match s4 with
                              | String g1 (String g2 (String g3 (String g4 s5))) =>
                                  match hex4 g1 g2 g3 g4 with
                                  | None => None
                                  | Some u2 =>
                                      if is_low_surrogate u2 then
                                        match scanstring s5 with
                                        | Some (t, rest) =>
                                            Some ((utf8 (65536 + (u - 55296) * 1024
                                                         + (u2 - 56320)) ++ t)%string,
                                                  rest)
                                        | None => None
                                        end
                                      else lone
                                  end
                              | _ => None
                              end
                            else lone
                        | _ => lone
                        end
                      else lone
                  end
              | _ => None
              end
            else
              match simple_escape e with
              | None => None
              | Some x =>
                  match scanstring s2 with
                  | Some (t, rest) => Some (String x t, rest)
                  | None => None
                  end
              end
        end
      else
        match scanstring s1 with
        | Some (t, rest) => Some (String c t, rest)
        | None => None
        end
  end.

(** *** Numbers

    An optional minus sign and an integer part (a single zero, or digits that
    do not start with zero), then a fraction (a dot and digits) and an exponent
    (e or E, an optional sign, digits), each taken only when complete. *)

Fixpoint span_digits (s : string) : string * string :=
  match s with
  | String c s' =>
      if is_digit c then let (ds, rest) := span_digits s' in (String c ds, rest)
      else ("", s)
  | EmptyString => ("", s)
  end.

Fixpoint int_of_digits (acc : Z) (ds : string) : Z :=
  match ds with
  | String c ds' => int_of_digits (acc * 10 + digit_val c) ds'
  | EmptyString => acc
  end.

Definition scan_sign (s : string) : bool * string :=
  match s with
  | String c s' => if code c =? 45 then (true, s') else (false, s)
  | EmptyString => (false, s)
  end.

Definition scan_int_part (s : string) : option (string * string) :=
  match s with
  | String d s' =>
      if code d =? 48 then Some ("0", s')
      else if is_digit d then Some (span_digits s)
      else None
  | EmptyString => None
  end.

Definition scan_frac (s : string) : string * string :=
  match s with
  | String dot (String f _ as s') =>
      if (code dot =? 46) && is_digit f then span_digits s' else ("", s)
  | _ => ("", s)
  end.

Definition scan_exp (s : string) : option Z * string :=
  match s with
  | String e s1 =>
      if (code e =? 101) || (code e =? 69) then
        match s1 with
        | String sg (String d _ as s2) =>
            if ((code sg =? 43) || (code sg =? 45)) && is_digit d then
              let (ds, rest) := span_digits s2 in
              (Some ((if code sg =? 45 then -1 else 1) * int_of_digits 0 ds), rest)
            else if is_digit sg then
              let (ds, rest) := span_digits s1 in (Some (int_of_digits 0 ds), rest)
            else (None, s)
        | String d EmptyString =>
            if is_digit d then (Some (digit_val d), "") else (None, s)
        | EmptyString => (None, s)
        end
      else (None, s)
  | EmptyString => (None, s)
  end.

(** What reading a value gives: the value and the text after it, a
    [JSONDecodeError] ([Bad]), another exception that ends the decoding
    ([Stop]), or [NoFuel] when the fuel of the model is used up, which
    [loads] never lets happen (see [loads_fuel]). *)
Inductive parsed (A : Type) : Type :=
| Ok (a : A) (rest : string)
| Bad
| Stop (e : exn)
| NoFuel.
Arguments Ok {A} a rest.
Arguments Bad {A}.
Arguments Stop {A} e.
Arguments NoFuel {A}.

(** [int(digits)] refuses a decimal literal of more than
    [sys.get_int_max_str_digits()] digits; literals of up to 640 digits are
    never checked, and the limit 0 switches the check off. *)
Definition exceeds_int_limit (py : interpreter) (digits : string) : bool :=
  let n := String.length digits in
  (640 <? n)%nat && (0 <? int_max_str_digits py)%nat
  && (int_max_str_digits py <? n)%nat.

(** A number without fraction and exponent is converted with [int], which
    raises [ValueError] above the digit limit; any other with [float]. *)
Definition scan_number (py : interpreter) (s : string) : parsed pyval :=
  let (neg, s1) := scan_sign s in
  match scan_int_part s1 with
  | None => Bad
  | Some (ip, s2) =>
      let (fp, s3) := scan_frac s2 in
      let (ex, s4) := scan_exp s3 in
      let sgn := if neg then -1 else 1 in
      match fp, ex with
      | EmptyString, None =>
          if exceeds_int_limit py ip then Stop ValueError
          else Ok (PyInt (sgn * int_of_digits 0 ip)) s4
      | _, _ =>
          Ok (PyFloat (sgn * int_of_digits 0 (ip ++ fp)%string)
                (match ex with Some x => x | None => 0 end
                 - Z.of_nat (String.length fp)))
             s4
      end
  end.

(** *** Values *)

Definition scan_constant (s : string) : option (pyval * string) :=
  match strip_prefix "null" s with
  | Some rest => Some (PyNone, rest)
  | None =>
  match strip_prefix "true" s with
  | Some rest => Some (PyBool true, rest)
  | None =>
  match strip_prefix "false" s with
  | Some rest => Some (PyBool false, rest)
  | None =>
  match strip_prefix "NaN" s with
  | Some rest => Some (PyFloatConst NaN, rest)
  | None =>
  match strip_prefix "Infinity" s with
  | Some rest => Some (PyFloatConst PosInf, rest)
  | None =>
  match strip_prefix "-Infinity" s with
  | Some rest => Some (PyFloatConst NegInf, rest)
  | None => None
  end end end end end end.

(** [scan_once] reads one value at the head of [s]; [json_array] and
    [json_object] read the items of a container whose opening bracket and
    following whitespace are already consumed.  [depth] is how many containers
    may still be entered: the scanner enters a recursive call at every opening
    brace or bracket, before it looks at what follows, and raises
    [RecursionError] when none is left. *)
Fixpoint scan_once (py : interpreter) (fuel depth : nat) (s : string)
  : parsed pyval :=
  match fuel with
  | O => NoFuel
  | S n =>
      match s with
      | EmptyString => Bad
      | String c r =>
          if code c =? 34 then
            match scanstring r with
            | Some (t, rest) => Ok (PyStr t) rest
            | None => Bad
            end
          else if code c =? 123 then
            match depth with
            | O => Stop RecursionError
            | S inner =>
                match skip_ws r with
                | String c' r' as body =>
                    if code c' =? 125 then Ok (PyDict []) r'
                    else json_object py n inner body []
                | EmptyString => Bad
                end
            end
          else if code c =? 91 then
            match depth with
            | O => Stop RecursionError
            | S inner =>
                match skip_ws r with
                | String c' r' as body =>
                    if code c' =? 93 then Ok (PyList []) r'
                    else json_array py n inner body []
                | EmptyString => Bad
                end
            end
          else
            match scan_constant s with
            | Some (v, rest) => Ok v rest
            | None => scan_number py s
            end
      end
  end

with json_array (py : interpreter) (fuel depth : nat) (s : string)
  (acc : list pyval) : parsed pyval :=
  match fuel with
  | O => NoFuel
  | S n =>
      match scan_once py n depth s with
      | Ok v rest =>
          match skip_ws rest with
          | String c r =>
              if code c =? 93 then Ok (PyList (rev (v :: acc))) r
              else if code c =? 44 then json_array py n depth (skip_ws r) (v :: acc)
              else Bad
          | EmptyString => Bad
          end
      | Bad => Bad
      | Stop e => Stop e
      | NoFuel => NoFuel
      end
  end

with json_object (py : interpreter) (fuel depth : nat) (s : string)
  (acc : list (string * pyval)) : parsed pyval :=
  match fuel with
  | O => NoFuel
  | S n =>
      match s with
      | EmptyString => Bad
      | String q r =>
          if code q =? 34 then
            match scanstring r with
            | None => Bad
            | Some (key, rest) =>
                match skip_ws rest with
                | EmptyString => Bad
                | String colon r2 =>
                    if code colon =? 58 then
                      match scan_once py n depth (skip_ws r2) with
                      | Ok v rest2 =>
                          match skip_ws rest2 with
                          | String c r3 =>
                              if code c =? 125 then
                                Ok (PyDict (dict_setitem key v acc)) r3
                              else if code c =? 44 then
                                json_object py n depth (skip_ws r3)
                                  (dict_setitem key v acc)
                              else Bad
                          | EmptyString => Bad
                          end
                      | Bad => Bad
                      | Stop e => Stop e
                      | NoFuel => NoFuel
                      end
                    else Bad
                end
            end
          else Bad
      end
  end.

(** A text written with apostrophes where the wire has double quotes. *)
Fixpoint dq (s : string) : string :=
  match s with
  | String c s' => String (if code c =? 39 then chr 34 else c) (dq s')
  | EmptyString => EmptyString
  end.

(** A text of [n] opening brackets. *)
Fixpoint brackets (n : nat) : string :=
  match n with
  | O => EmptyString
  | S k => String (chr 91) (brackets k)
  end.

(** A text of [n] digits 1. *)
Fixpoint ones (n : nat) : string :=
  match n with
  | O => EmptyString
  | S k => String (chr 49) (ones k)
  end.

(** [json.loads(s)]: one value surrounded by whitespace.  It raises
    [JSONDecodeError] for a text that is not JSON, [RecursionError] for one
    nested deeper than the interpreter allows and [ValueError] for an integer
    longer than the digit limit, whichever the scan meets first.  The fuel
    given always suffices (see [loads_fuel]), so the last case never occurs. *)
Definition loads (py : interpreter) (s : string) : result pyval :=
  let s0 := skip_ws s in
  match scan_once py (S (2 * String.length s0)) (depth_left py) s0 with
  | Ok v rest =>
      match skip_ws rest with
      | EmptyString => Return v
      | String _ _ => Raise JSONDecodeError
      end
  | Bad => Raise JSONDecodeError
  | Stop e => Raise e
  | NoFuel => Raise RecursionError
  end.

End Json.

(** ** A state-and-exception monad

    A Python call runs against mutable state and either returns or raises; what
    it wrote before raising stays written. *)

Definition M (S A : Type) : Type := S -> S * result A.

Definition ret {S A} (a : A) : M S A := fun s => (s, Return a).

Definition raise {S A} (e : exn) : M S A := fun s => (s, Raise e).

Definition bind {S A B} (m : M S A) (k : A -> M S B) : M S B :=
  fun s =>
    match m s with
    | (s', Return a) => k a s'
    | (s', Raise e) => (s', Raise e)
    end.

Definition gets {S A} (f : S -> A) : M S A := fun s => (s, Return (f s)).

Definition modify {S} (f : S -> S) : M S unit := fun s => (f s, Return tt).

(** A result computed without touching the state. *)
Definition lift {S A} (r : result A) : M S A := fun s => (s, r).

(** [try: body except <caught>: handler] *)
Definition try_except {S A} (body : M S A) (caught : exn -> bool)
  (handler : M S A) : M S A :=
  fun s =>
    match body s with
    | (s', Raise e) => if caught e then handler s' else (s', Raise e)
    | r => r
    end.

Declare Scope monad_scope.
Delimit Scope monad_scope with monad.
Notation "x <- m ;; k" := (bind m (fun x => k))
  (at level 100, m at next level, right associativity) : monad_scope.
Notation "m ;;; k" := (bind m (fun _ => k))
  (at level 100, right associativity) : monad_scope.
Local Open Scope monad_scope.

(** ** [struct.pack], little-endian *)

Module Struct.

Definition byte_of_Z (z : Z) : byte :=
  byte_of_ascii (ascii_of_N (Z.to_N (z mod 256))).

Definition Z_of_byte (b : byte) : Z := Z.of_N (Byte.to_N b).

(** The [n] low bytes of [v], least significant first. *)
Fixpoint le_bytes (n : nat) (v : Z) : list byte :=
  match n with
  | O => []
  | S k => byte_of_Z v :: le_bytes k (v / 256)
  end.

(** The integer a little-endian byte string stands for ([struct.unpack]). *)
Fixpoint le_int (bs : list byte) : Z :=
  match bs with
  | [] => 0
  | b :: bs' => Z_of_byte b + 256 * le_int bs'
  end.

(** Format [<L]: an unsigned 32-bit integer; out of range is [struct.error]. *)
Definition pack_L (v : Z) : result (list byte) :=
  if (0 <=? v) && (v <? 2 ^ 32) then Return (le_bytes 4 v) else Raise StructError.

(** Format [<H]: an unsigned 16-bit integer. *)
Definition pack_H (v : Z) : result (list byte) :=
  if (0 <=? v) && (v <? 2 ^ 16) then Return (le_bytes 2 v) else Raise StructError.

(** Format [4s]: four bytes, cut or padded with zeros. *)
Definition pack_4s (s : string) : list byte :=
  take 4 (list_byte_of_string s ++ replicate 4 x00).

End Struct.

(** ** [io.BytesIO] *)

Module BytesIO.

Record t : Type := Make {
  buf : list byte;
  pos : nat
}.

Definition empty : t := Make [] 0.

(** [write]: the data replaces what is at the position and extends the buffer;
    a position past the end is reached by zero filling. *)
Definition write (data : list byte) (f : t) : t :=
  let n := pos f in
  Make (take n (buf f ++ replicate (n - length (buf f))%nat x00)
        ++ data ++ drop (n + length data)%nat (buf f))
       (n + length data)%nat.

Definition tell (f : t) : nat := pos f.

(** [seek(p, 0)] *)
Definition seek (p : nat) (f : t) : t := Make (buf f) p.

Definition getvalue (f : t) : list byte := buf f.

End BytesIO.

(** ** [wave.Wave_write] over a [BytesIO]

    The module as it runs on a little-endian host, for a file object the caller
    opened.  The buffer is one object that the caller and the writer both hold:
    [buffer] is that object, and [_file] tells whether the writer still refers
    to it ([close] drops the reference). *)

Module Wave.

Record wave_write : Type := WaveWrite {
  buffer : BytesIO.t;
  _file : bool;
  _nchannels : Z;
  _sampwidth : Z;
  _framerate : Z;
  _nframes : Z;
  _nframeswritten : Z;
  _datawritten : Z;
  _datalength : Z;
  _headerwritten : bool;
  _form_length_pos : nat;
  _data_length_pos : nat
}.

Definition WAVE_FORMAT_PCM : Z := 1.

(** [wave.open(buffer, "wb")] *)
Definition open (b : BytesIO.t) : wave_write :=
  WaveWrite b true 0 0 0 0 0 0 0 false 0 0.

Definition on_buffer (f : BytesIO.t -> BytesIO.t) (w : wave_write) : wave_write :=
  WaveWrite (f (buffer w)) (_file w) (_nchannels w) (_sampwidth w) (_framerate w)
    (_nframes w) (_nframeswritten w) (_datawritten w) (_datalength w)
    (_headerwritten w) (_form_length_pos w) (_data_length_pos w).

Definition set_file (v : bool) (w : wave_write) : wave_write :=
  WaveWrite (buffer w) v (_nchannels w) (_sampwidth w) (_framerate w)
    (_nframes w) (_nframeswritten w) (_datawritten w) (_datalength w)
    (_headerwritten w) (_form_length_pos w) (_data_length_pos w).

Definition set_nchannels (v : Z) (w : wave_write) : wave_write :=
  WaveWrite (buffer w) (_file w) v (_sampwidth w) (_framerate w)
    (_nframes w) (_nframeswritten w) (_datawritten w) (_datalength w)
    (_headerwritten w) (_form_length_pos w) (_data_length_pos w).

Definition set_sampwidth (v : Z) (w : wave_write) : wave_write :=
  WaveWrite (buffer w) (_file w) (_nchannels w) v (_framerate w)
    (_nframes w) (_nframeswritten w) (_datawritten w) (_datalength w)
    (_headerwritten w) (_form_length_pos w) (_data_length_pos w).

Definition set_framerate (v : Z) (w : wave_write) : wave_write :=
  WaveWrite (buffer w) (_file w) (_nchannels w) (_sampwidth w) v
    (_nframes w) (_nframeswritten w) (_datawritten w) (_datalength w)
    (_headerwritten w) (_form_length_pos w) (_data_length_pos w).

Definition set_nframes (v : Z) (w : wave_write) : wave_write :=
  WaveWrite (buffer w) (_file w) (_nchannels w) (_sampwidth w) (_framerate w)
    v (_nframeswritten w) (_datawritten w) (_datalength w)
    (_headerwritten w) (_form_length_pos w) (_data_length_pos w).

Definition set_nframeswritten (v : Z) (w : wave_write) : wave_write :=
  WaveWrite (buffer w) (_file w) (_nchannels w) (_sampwidth w) (_framerate w)
    (_nframes w) v (_datawritten w) (_datalength w)
    (_headerwritten w) (_form_length_pos w) (_data_length_pos w).

Definition set_datawritten (v : Z) (w : wave_write) : wave_write :=
  WaveWrite (buffer w) (_file w) (_nchannels w) (_sampwidth w) (_framerate w)
    (_nframes w) (_nframeswritten w) v (_datalength w)
    (_headerwritten w) (_form_length_pos w) (_data_length_pos w).

Definition set_datalength (v : Z) (w : wave_write) : wave_write :=
  WaveWrite (buffer w) (_file w) (_nchannels w) (_sampwidth w) (_framerate w)
    (_nframes w) (_nframeswritten w) (_datawritten w) v
    (_headerwritten w) (_form_length_pos w) (_data_length_pos w).

Definition set_headerwritten (v : bool) (w : wave_write) : wave_write :=
  WaveWrite (buffer w) (_file w) (_nchannels w) (_sampwidth w) (_framerate w)
    (_nframes w) (_nframeswritten w) (_datawritten w) (_datalength w)
    v (_form_length_pos w) (_data_length_pos w).

Definition set_form_length_pos (v : nat) (w : wave_write) : wave_write :=
  WaveWrite (buffer w) (_file w) (_nchannels w) (_sampwidth w) (_framerate w)
    (_nframes w) (_nframeswritten w) (_datawritten w) (_datalength w)
    (_headerwritten w) v (_data_length_pos w).

Definition set_data_length_pos (v : nat) (w : wave_write) : wave_write :=
  WaveWrite (buffer w) (_file w) (_nchannels w) (_sampwidth w) (_framerate w)
    (_nframes w) (_nframeswritten w) (_datawritten w) (_datalength w)
    (_headerwritten w) (_form_length_pos w) v.

Definition file_write (data : list byte) : M wave_write unit :=
  modify (on_buffer (BytesIO.write data)).

Definition file_tell : M wave_write nat := gets (fun w => BytesIO.tell (buffer w)).

Definition file_seek (p : nat) : M wave_write unit :=
  modify (on_buffer (BytesIO.seek p)).

Definition py_len (data : list byte) : Z := Z.of_nat (length data).

Definition setnchannels (nchannels : Z) : M wave_write unit :=
  dw <- gets _datawritten ;;
  if negb (dw =? 0) then
    raise (WaveError "cannot change parameters after starting to write")
  else if nchannels <? 1 then raise (WaveError "bad # of channels")
  else modify (set_nchannels nchannels).

Definition setsampwidth (sampwidth : Z) : M wave_write unit :=
  dw <- gets _datawritten ;;
  if negb (dw =? 0) then
    raise (WaveError "cannot change parameters after starting to write")
  else if (sampwidth <? 1) || (4 <? sampwidth) then
    raise (WaveError "bad sample width")
  else modify (set_sampwidth sampwidth).

Definition setframerate (framerate : Z) : M wave_write unit :=
  dw <- gets _datawritten ;;
  if negb (dw =? 0) then
    raise (WaveError "cannot change parameters after starting to write")
  else if framerate <=? 0 then raise (WaveError "bad frame rate")
  else modify (set_framerate framerate).

(** [struct.pack('<L4s4sLHHLLHH4s', ...)] of the header after [RIFF]. *)
Definition pack_header (datalength nchannels framerate sampwidth : Z)
  : M wave_write (list byte) :=
  a <- lift (Struct.pack_L (36 + datalength)) ;;
  b <- lift (Struct.pack_L 16) ;;
  c <- lift (Struct.pack_H WAVE_FORMAT_PCM) ;;
  d <- lift (Struct.pack_H nchannels) ;;
  e <- lift (Struct.pack_L framerate) ;;
  f <- lift (Struct.pack_L (nchannels * framerate * sampwidth)) ;;
  g <- lift (Struct.pack_H (nchannels * sampwidth)) ;;
  h <- lift (Struct.pack_H (sampwidth * 8)) ;;
  ret (a ++ Struct.pack_4s "WAVE" ++ Struct.pack_4s "fmt " ++ b ++ c ++ d ++ e
       ++ f ++ g ++ h ++ Struct.pack_4s "data").

Definition _write_header (initlength : Z) : M wave_write unit :=
  file_write (list_byte_of_string "RIFF") ;;;
  nf <- gets _nframes ;;
  nch <- gets _nchannels ;;
  sw <- gets _sampwidth ;;
  (if nf =? 0 then modify (set_nframes (initlength / (nch * sw))) else ret tt) ;;;
  nf <- gets _nframes ;;
  modify (set_datalength (nf * nch * sw)) ;;;
  p <- file_tell ;;
  modify (set_form_length_pos p) ;;;
  dl <- gets _datalength ;;
  fr <- gets _framerate ;;
  hdr <- pack_header dl nch fr sw ;;
  file_write hdr ;;;
  p <- file_tell ;;
  modify (set_data_length_pos p) ;;;
  len <- lift (Struct.pack_L dl) ;;
  file_write len ;;;
  modify (set_headerwritten true).

Definition _ensure_header_written (datasize : Z) : M wave_write unit :=
  hw <- gets _headerwritten ;;
  if hw then ret tt
  else
    nch <- gets _nchannels ;;
    sw <- gets _sampwidth ;;
    fr <- gets _framerate ;;
    if nch =? 0 then raise (WaveError "# channels not specified")
    else if sw =? 0 then raise (WaveError "sample width not specified")
    else if fr =? 0 then raise (WaveError "sampling rate not specified")
    else _write_header datasize.

Definition _patchheader : M wave_write unit :=
  dw <- gets _datawritten ;;
  dl <- gets _datalength ;;
  if dw =? dl then ret tt
  else
    curpos <- file_tell ;;
    p <- gets _form_length_pos ;;
    file_seek p ;;;
    a <- lift (Struct.pack_L (36 + dw)) ;;
    file_write a ;;;
    p <- gets _data_length_pos ;;
    file_seek p ;;;
    b <- lift (Struct.pack_L dw) ;;
    file_write b ;;;
    file_seek curpos ;;;
    modify (set_datalength dw).

Definition writeframesraw (data : list byte) : M wave_write unit :=
  _ensure_header_written (py_len data) ;;;
  sw <- gets _sampwidth ;;
  nch <- gets _nchannels ;;
  let nframes := py_len data / (sw * nch) in
  file_write data ;;;
  dw <- gets _datawritten ;;
  modify (set_datawritten (dw + py_len data)) ;;;
  nfw <- gets _nframeswritten ;;
  modify (set_nframeswritten (nfw + nframes)).

Definition writeframes (data : list byte) : M wave_write unit :=
  writeframesraw data ;;;
  dl <- gets _datalength ;;
  dw <- gets _datawritten ;;
  if negb (dl =? dw) then _patchheader else ret tt.

(** [close]: the [finally] clause drops the file reference whatever happens. *)
Definition close : M wave_write unit :=
  fun w =>
    let (w', r) :=
      (open_ <- gets _file ;;
       if open_ then
         _ensure_header_written 0 ;;;
         dl <- gets _datalength ;;
         dw <- gets _datawritten ;;
         (if negb (dl =? dw) then _patchheader else ret tt)
       else ret tt) w in
    (set_file false w', r).

(** [with wave.open(buffer, "wb") as wf: body]: [close] runs on the way out,
    and an exception it raises replaces the body's. *)
Definition with_open (b : BytesIO.t) (body : M wave_write unit)
  : wave_write * result unit :=
  let (w1, r1) := body (open b) in
  let (w2, r2) := close w1 in
  match r2 with
  | Raise e => (w2, Raise e)
  | Return _ => (w2, r1)
  end.

(** The 44 bytes in front of the samples. *)
Definition header (nchannels framerate sampwidth datalength : Z) : list byte :=
  list_byte_of_string "RIFF" ++ Struct.le_bytes 4 (36 + datalength)
  ++ list_byte_of_string "WAVEfmt " ++ Struct.le_bytes 4 16
  ++ Struct.le_bytes 2 WAVE_FORMAT_PCM ++ Struct.le_bytes 2 nchannels
  ++ Struct.le_bytes 4 framerate
  ++ Struct.le_bytes 4 (nchannels * framerate * sampwidth)
  ++ Struct.le_bytes 2 (nchannels * sampwidth)
  ++ Struct.le_bytes 2 (sampwidth * 8)
  ++ list_byte_of_string "data" ++ Struct.le_bytes 4 datalength.

(** The writer once [save_audio] has set its three parameters (mono, two
    bytes a sample, rate [R]) ... *)
Definition configured (R : Z) : wave_write :=
  WaveWrite BytesIO.empty true 1 2 R 0 0 0 0 false 0 0.

(** ... and after [writeframes]: header and samples in the buffer, the header
    carrying the true data length. *)
Definition written (R : Z) (audio : list byte) : wave_write :=
  WaveWrite (BytesIO.Make (header 1 R 2 (py_len audio) ++ audio)
               (44 + length audio))
    true 1 2 R (py_len audio / 2) (py_len audio / 2) (py_len audio)
    (py_len audio) true 4 40.

End Wave.

(** ** The server: [bot.py] *)

Module Bot.

(** *** Frames and payloads *)

(** The fields of a [StartFrame] that the serializer reads and writes. *)
Record start_frame : Type := StartFrame {
  audio_in_sample_rate : pyval;
  audio_in_channels : pyval
}.

(** The pipeline frames the serializer meets.  [InputAudioRawFrame] and
    [OutputAudioRawFrame] are the [AudioRawFrame] instances; [OtherFrame]
    stands for every frame class that is not one. *)
Inductive frame : Type :=
| InputAudioRawFrame (audio : list byte) (sample_rate num_channels : pyval)
| OutputAudioRawFrame (audio : list byte) (sample_rate num_channels : pyval)
| Start (f : start_frame)
| OtherFrame (class_name : string).

(** [isinstance(frame, AudioRawFrame)], with the frame's [audio]. *)
Definition as_AudioRawFrame (f : frame) : option (list byte) :=
  match f with
  | InputAudioRawFrame a _ _ | OutputAudioRawFrame a _ _ => Some a
  | Start _ | OtherFrame _ => None
  end.

(** What the WebSocket hands to [deserialize]. *)
Inductive payload : Type :=
| PBytes (b : list byte)
| PByteArray (b : list byte)
| PStr (s : string)
| POther.

(** *** State *)

Record serializer : Type := Serializer {
  _sample_rate : pyval;
  _channels : pyval
}.

Inductive log_entry : Type :=
| LoggingDebug (msg : string)   (* logging.getLogger(__name__).debug *)
| LoguruInfo (msg : string).    (* logger.info *)

(** The serializer instance of a session, the log and the files written. *)
Record server : Type := Server {
  self : serializer;
  logged : list log_entry;
  files : gmap string (list byte)
}.

Definition set_sample_rate (v : pyval) : M server unit :=
  modify (fun s => Server (Serializer v (_channels (self s))) (logged s) (files s)).

Definition set_channels (v : pyval) : M server unit :=
  modify (fun s => Server (Serializer (_sample_rate (self s)) v) (logged s) (files s)).

Definition log (e : log_entry) : M server unit :=
  modify (fun s => Server (self s) (logged s ++ [e]) (files s)).

Definition write_file (name : string) (content : list byte) : M server unit :=
  modify (fun s => Server (self s) (logged s) (<[name := content]> (files s))).

(** [RawPCMSerializer.__init__(self, sample_rate=16000, channels=1)] *)
Definition __init__ (sample_rate channels : pyval) : serializer :=
  Serializer sample_rate channels.

(** [RawPCMSerializer()], as [run_bot] builds it. *)
Definition RawPCMSerializer : serializer := __init__ (PyInt 16000) (PyInt 1).

(** *** [RawPCMSerializer] *)

Definition sample_rate_of (s : server) : pyval := _sample_rate (self s).
Definition channels_of (s : server) : pyval := _channels (self s).

(** [obj.get(key)]: only a dict has the method. *)
Definition py_get (obj : pyval) (key : string) : result (option pyval) :=
  match obj with
  | PyDict d => Return (dict_get d key)
  | _ => Raise AttributeError
  end.

(** [obj.get(key, default)] *)
Definition py_get_default (obj : pyval) (key : string) (default : pyval)
  : result pyval :=
  match obj with
  | PyDict d => Return (dict_get_default d key default)
  | _ => Raise AttributeError
  end.

(** [setup]: [self._sample_rate = frame.audio_in_sample_rate or self._sample_rate] *)
Definition setup (f : start_frame) : M server unit :=
  sr <- gets sample_rate_of ;;
  set_sample_rate (py_or (audio_in_sample_rate f) sr).

(** [serialize] *)
Definition serialize (f : frame) : M server (option (list byte)) :=
  match as_AudioRawFrame f with
  | Some audio =>
      log (LoggingDebug ("Serializing audio frame of "
                         ++ pretty (length audio) ++ " bytes")%string) ;;;
      ret (Some audio)
  | None => ret None
  end.

Definition is_JSONDecodeError (e : exn) : bool :=
  match e with JSONDecodeError => true | _ => false end.

(** [deserialize].  The [try] body yields the frame it returns, or [None] when
    control falls through to the final [return None]. *)
Definition deserialize (py : interpreter) (data : payload)
  : M server (option frame) :=
  match data with
  | PBytes b | PByteArray b =>
      sr <- gets sample_rate_of ;;
      ch <- gets channels_of ;;
      ret (Some (InputAudioRawFrame b sr ch))
  | PStr text =>
      try_except
        (obj <- lift (Json.loads py text) ;;
         ty <- lift (py_get obj "type") ;;
         if eq_str ty "start" then
           sr0 <- gets sample_rate_of ;;
           sr <- lift (py_get_default obj "audio_in_sample_rate" sr0) ;;
           set_sample_rate sr ;;;
           ch0 <- gets channels_of ;;
           ch <- lift (py_get_default obj "audio_in_channels" ch0) ;;
           set_channels ch ;;;
           sr' <- gets sample_rate_of ;;
           ch' <- gets channels_of ;;
           ret (Some (Start (StartFrame sr' ch')))
         else ret None)
        is_JSONDecodeError
        (ret None)
  | POther => ret None
  end.

(** The calls a session makes on its serializer, and a session as the list
    of them in order. *)
Inductive call : Type :=
| Setup (f : start_frame)
| Serialize (f : frame)
| Deserialize (data : payload).

Inductive outcome : Type :=
| SetupDone (r : result unit)
| Serialized (r : result (option (list byte)))
| Deserialized (r : result (option frame)).

Definition perform (py : interpreter) (c : call) (s : server)
  : server * outcome :=
  match c with
  | Setup f => let (s', r) := setup f s in (s', SetupDone r)
  | Serialize f => let (s', r) := serialize f s in (s', Serialized r)
  | Deserialize d => let (s', r) := deserialize py d s in (s', Deserialized r)
  end.

Fixpoint session (py : interpreter) (cs : list call) (s : server)
  : server * list outcome :=
  match cs with
  | [] => (s, [])
  | c :: cs' =>
      let (s1, o) := perform py c s in
      let (s2, os) := session py cs' s1 in
      (s2, o :: os)
  end.

(** The calls that renegotiate: a start-control text, and a [setup] whose
    frame carries a true input sample rate. *)
Definition renegotiates (py : interpreter) (c : call) : bool :=
  match c with
  | Setup f => truthy (audio_in_sample_rate f)
  | Deserialize (PStr text) =>
      match Json.loads py text with
      | Return (PyDict d) => eq_str (dict_get d "type") "start"
      | _ => false
      end
  | _ => false
  end.

(** The wire text of the start-control message of the specification. *)
Definition start_8000_mono : string :=
  Json.dq "{'type':'start','audio_in_sample_rate':8000,'audio_in_channels':1}".

(** A binary payload, as [bytes] or as [bytearray]. *)
Definition binary (as_bytearray : bool) (b : list byte) : payload :=
  if as_bytearray then PByteArray b else PBytes b.

(** *** [save_audio] *)

(** What [datetime.datetime.now()] returns: the wall clock is an input. *)
Record datetime : Type := DateTime {
  year : Z;
  month : Z;
  day : Z;
  hour : Z;
  minute : Z;
  second : Z
}.

Definition digit (n : Z) : ascii := Json.chr (48 + n mod 10).

(** A number in two and in four decimal digits, zero padded. *)
Definition pad2 (n : Z) : string :=
  String (digit (n / 10)) (String (digit n) "").

Definition pad4 (n : Z) : string :=
  String (digit (n / 1000)) (String (digit (n / 100)) (pad2 n)).

(** [now.strftime('%Y%m%d_%H%M%S')], for a year of four digits. *)
Definition strftime (now : datetime) : string :=
  (pad4 (year now) ++ pad2 (month now) ++ pad2 (day now) ++ "_"
   ++ pad2 (hour now) ++ pad2 (minute now) ++ pad2 (second now))%string.

Definition recording_name (server_name : string) (now : datetime) : string :=
  (server_name ++ "_recording_" ++ strftime now ++ ".wav")%string.

(** The shape [YYYYMMDD_HHMMSS]: eight digits, an underscore, six digits. *)
Fixpoint all_digits (s : string) : bool :=
  match s with
  | String c s' => Json.is_digit c && all_digits s'
  | EmptyString => true
  end.

Definition is_timestamp (s : string) : bool :=
  (String.length s =? 15)%nat
  && all_digits (substring 0 8 s)
  && String.eqb (substring 8 1 s) "_"
  && all_digits (substring 9 6 s).

(** The rates [R] and data lengths [N] that a mono 16-bit WAV header can
    carry: a positive rate whose byte rate [2R] fits 32 bits, and a length for
    which the RIFF size [36 + N] fits 32 bits. *)
Definition fits_header (R N : Z) : bool :=
  (0 <? R) && (R <? 2 ^ 31) && (N + 36 <? 2 ^ 32).

(** [save_audio(server_name, audio, sample_rate, num_channels)], run at the
    time [now]. *)
Definition save_audio (now : datetime) (server_name : string)
  (audio : list byte) (sample_rate num_channels : Z) : M server unit :=
  if 0 <? Wave.py_len audio then
    let filename := recording_name server_name now in
    match
      Wave.with_open BytesIO.empty
        (Wave.setsampwidth 2 ;;;
         Wave.setnchannels num_channels ;;;
         Wave.setframerate sample_rate ;;;
         Wave.writeframes audio)
    with
    | (wf, Return _) =>
        write_file filename (BytesIO.getvalue (Wave.buffer wf)) ;;;
        log (LoguruInfo ("Merged audio saved to " ++ filename)%string)
    | (_, Raise e) => raise e
    end
  else log (LoguruInfo "No audio data to save").

(** The times [datetime.now()] can show with a year of four digits. *)
Definition calendar_time (now : datetime) : Prop :=
  1000 <= year now <= 9999 /\ 1 <= month now <= 12 /\ 1 <= day now <= 31 /\
  0 <= hour now <= 23 /\ 0 <= minute now <= 59 /\ 0 <= second now <= 59.

End Bot.

(** ** Reading a WAV file back

    The canonical 44-byte layout: [RIFF] size [WAVE], a 16-byte [fmt ] chunk of
    PCM, then the [data] chunk.  The fields are what [wave.open(f, "rb")]
    reports as [getnchannels], [getsampwidth] and [getframerate]. *)

Module WavFile.

Record info : Type := Info {
  riff_size : Z;
  nchannels : Z;
  sampwidth : Z;
  framerate : Z;
  byte_rate : Z;
  block_align : Z;
  data_size : Z;
  data : list byte
}.

Definition field (off len : nat) (f : list byte) : list byte :=
  take len (drop off f).

Fixpoint bytes_eqb (a b : list byte) : bool :=
  match a, b with
  | [], [] => true
  | x :: a', y :: b' => Byte.eqb x y && bytes_eqb a' b'
  | _, _ => false
  end.

Definition tag (off : nat) (name : string) (f : list byte) : bool :=
  bytes_eqb (field off 4 f) (list_byte_of_string name).

Definition read (f : list byte) : option info :=
  if tag 0 "RIFF" f && tag 8 "WAVE" f && tag 12 "fmt " f && tag 36 "data" f
     && (Struct.le_int (field 16 4 f) =? 16)
     && (Struct.le_int (field 20 2 f) =? Wave.WAVE_FORMAT_PCM)
  then
    Some (Info (Struct.le_int (field 4 4 f))
               (Struct.le_int (field 22 2 f))
               ((Struct.le_int (field 34 2 f) + 7) / 8)
               (Struct.le_int (field 24 4 f))
               (Struct.le_int (field 28 4 f))
               (Struct.le_int (field 32 2 f))
               (Struct.le_int (field 40 4 f))
               (drop 44 f))
  else None.

End WavFile.

(** ** [asyncio.Queue] *)

Module Queue.

Record t : Type := Make {
  maxsize : Z;
  items : list (list byte);
  unfinished_tasks : Z
}.

(** [asyncio.Queue(maxsize=n)] *)
Definition new (n : Z) : t := Make n [] 0.

Definition qsize (q : t) : Z := Z.of_nat (length (items q)).

Definition empty (q : t) : bool :=
  match items q with [] => true | _ => false end.

Definition full (q : t) : bool :=
  if maxsize q <=? 0 then false else maxsize q <=? qsize q.

Definition put_nowait (item : list byte) : M t unit :=
  is_full <- gets full ;;
  if is_full then raise QueueFull
  else modify (fun q => Make (maxsize q) (items q ++ [item]) (unfinished_tasks q + 1)).

Definition get_nowait : M t (list byte) :=
  fun q =>
    match items q with
    | [] => (q, Raise QueueEmpty)
    | x :: rest => (Make (maxsize q) rest (unfinished_tasks q), Return x)
    end.

Definition task_done : M t unit :=
  n <- gets unfinished_tasks ;;
  if n <=? 0 then raise ValueError
  else modify (fun q => Make (maxsize q) (items q) (n - 1)).

End Queue.

(** ** The client: [test_client.py]

    [audio_stream] runs three activities: the capture callback on the audio
    thread, the [sender] task and the receive loop of the main task.  Each
    event below is one atomic piece of one of them, from one suspension point
    to the next; a run of the client is a list of events.  The function runs
    under [asyncio.run], as the script calls it: when it ends with an error
    while the sender task is pending, the runner cancels the task. *)

Module Client.

Definition chunk : Type := list byte.

(** Where the [sender] task stands. *)
Inductive sender_state : Type :=
| AtGet                    (* suspended in [await queue.get()] *)
| AtSend (data : chunk)    (* suspended in [await websocket.send(data)] *)
| Finished (e : exn).      (* the task ended with this exception *)

(** Where the main task stands. *)
Inductive main_state : Type :=
| AtRecv                   (* in the loop, at [await websocket.recv()] *)
| AtJoin                   (* loop left, [sender_task.cancel()] done, at [await sender_task] *)
| Returned                 (* [audio_stream] returned *)
| Raised (e : exn).        (* [audio_stream] raised *)

Inductive message : Type :=
| Binary (b : chunk)
| Text (s : string).

Record client : Type := Client {
  queue : Queue.t;
  posted : list chunk;       (* [safe_put] calls given to [call_soon_threadsafe], oldest first *)
  sender_task : sender_state;
  must_cancel : bool;        (* [cancel()] was called on the running sender *)
  main : main_state;
  sent : list chunk;         (* chunks whose [websocket.send] returned *)
  played : list chunk;       (* chunks written to the speaker *)
  stdout : list string;
  accepted : list chunk      (* history: the chunks [put_nowait] took *)
}.

Definition newline : string := String (Json.chr 10) "".

(** The state once the connection is open, the sender task is created and the
    streams are started. *)
Definition init (uri : string) : client :=
  Client (Queue.new 100) [] AtGet false AtRecv [] [] 
    [("Connected to " ++ uri)%string;
     "Streaming microphone… Press Ctrl-C to stop."] [].

(** [safe_put] *)
Definition safe_put (item : chunk) : M Queue.t unit :=
  is_full <- gets Queue.full ;;
  if negb is_full then Queue.put_nowait item else ret tt.

(** [mic_callback(indata, frames, time, status)], on the audio thread. *)
Definition mic_callback (indata : chunk) (input_overflow : bool) (c : client)
  : client :=
  Client (queue c) (posted c ++ [indata]) (sender_task c) (must_cancel c)
    (main c) (sent c) (played c)
    (stdout c ++ (if input_overflow then ["Audio buffer overflow!"] else []))
    (accepted c).

(** The loop runs one posted [safe_put]. *)
Definition run_posted (item : chunk) (rest : list chunk) (c : client) : client :=
  let took := negb (Queue.full (queue c)) in
  Client (fst (safe_put item (queue c))) rest (sender_task c) (must_cancel c)
    (main c) (sent c) (played c) (stdout c)
    (accepted c ++ (if took then [item] else [])).

(** The [finally: queue.task_done()] of the sender, then its next state. *)
Definition sender_finally (next : sender_state) (c : client) (sent' : list chunk)
  : client :=
  let (q, r) := Queue.task_done (queue c) in
  Client q (posted c)
    (match r with Return _ => next | Raise e => Finished e end)
    false (main c) sent' (played c) (stdout c) (accepted c).

Definition is_finished (s : sender_state) : bool :=
  match s with Finished _ => true | _ => false end.

(** Leaving the loop: the streams close and [sender_task.cancel()] runs. *)
Definition leave_loop (msgs : list string) (c : client) : client :=
  Client (queue c) (posted c) (sender_task c)
    (negb (is_finished (sender_task c))) AtJoin (sent c) (played c)
    (stdout c ++ msgs) (accepted c).

Definition set_main (m : main_state) (c : client) : client :=
  Client (queue c) (posted c) (sender_task c) (must_cancel c) m (sent c)
    (played c) (stdout c) (accepted c).

(** An error raised in the loop ends [audio_stream] at once, past lines 56 to
    58.  On its way out it leaves [async with websockets.connect], which
    closes the connection, and then [asyncio.run], which cancels the sender
    task if it has not ended; both are taken as one step with the raise, the
    sender does not run in between. *)
Definition abort (e : exn) (c : client) : client :=
  Client (queue c) (posted c) (sender_task c)
    (negb (is_finished (sender_task c))) (Raised e) (sent c) (played c)
    (stdout c) (accepted c).

(** [with contextlib.suppress(asyncio.CancelledError): await sender_task], for
    a sender that ended with [e]: the cancellation is swallowed, anything else
    is raised again. *)
Definition join_result (e : exn) : main_state :=
  match e with
  | CancelledError => Returned
  | _ => Raised e
  end.

Inductive event : Type :=
| MicCallback (indata : chunk) (input_overflow : bool)
| LoopCallback             (* the loop runs the oldest posted [safe_put] *)
| SenderGets               (* [queue.get()] returns to the sender *)
| SendReturns              (* [websocket.send(data)] returns *)
| SendRaises (e : exn)     (* [websocket.send(data)] raises *)
| RecvReturns (m : message)
| RecvRaises (e : exn)
| SenderCancelled          (* the CancelledError reaches the sender *)
| JoinResumes.             (* [await sender_task] resumes the main task *)

(** One event; [None] when the event cannot happen in the state. *)
Definition step (ev : event) (c : client) : option client :=
  match ev with
  | MicCallback indata overflow =>
      match main c with
      | AtRecv => Some (mic_callback indata overflow c)
      | _ => None
      end
  | LoopCallback =>
      match posted c with
      | item :: rest => Some (run_posted item rest c)
      | [] => None
      end
  | SenderGets =>
      match sender_task c, must_cancel c, Queue.get_nowait (queue c) with
      | AtGet, false, (q, Return data) =>
          Some (Client q (posted c) (AtSend data) false (main c) (sent c)
                  (played c) (stdout c) (accepted c))
      | _, _, _ => None
      end
  | SendReturns =>
      match sender_task c, must_cancel c with
      | AtSend data, false => Some (sender_finally AtGet c (sent c ++ [data]))
      | _, _ => None
      end
  | SendRaises e =>
      match sender_task c, must_cancel c with
      | AtSend data, false => Some (sender_finally (Finished e) c (sent c))
      | _, _ => None
      end
  | RecvReturns m =>
      match main c with
      | AtRecv =>
          match m with
          | Binary ((_ :: _) as b) =>
              if Nat.even (length b) then
                Some (Client (queue c) (posted c) (sender_task c) (must_cancel c)
                        (main c) (sent c) (played c ++ [b]) (stdout c) (accepted c))
              else Some (abort ValueError c)
          | _ => Some c
          end
      | _ => None
      end
  | RecvRaises e =>
      match main c with
      | AtRecv =>
          match e with
          | ConnectionClosedOK =>
              Some (leave_loop ["Server closed connection cleanly."] c)
          | CancelledError => Some (leave_loop [] c)
          | KeyboardInterrupt =>
              Some (leave_loop [(newline ++ "Exiting…")%string] c)
          | _ => Some (abort e c)
          end
      | _ => None
      end
  | SenderCancelled =>
      match must_cancel c, sender_task c with
      | true, AtGet =>
          Some (Client (queue c) (posted c) (Finished CancelledError) false
                  (main c) (sent c) (played c) (stdout c) (accepted c))
      | true, AtSend _ =>
          Some (sender_finally (Finished CancelledError) c (sent c))
      | _, _ => None
      end
  | JoinResumes =>
      match main c, sender_task c with
      | AtJoin, Finished e => Some (set_main (join_result e) c)
      | _, _ => None
      end
  end.

Fixpoint run (evs : list event) (c : client) : option client :=
  match evs with
  | [] => Some c
  | ev :: evs' =>
      match step ev c with
      | Some c' => run evs' c'
      | None => None
      end
  end.

(** The sender working alone through [n] chunks. *)
Definition drain (n : nat) : list event :=
  concat (replicate n [SenderGets; SendReturns]).

(** [n] captured chunks, each put in the queue before the next arrives. *)
Definition capture (n : nat) (indata : chunk) : list event :=
  concat (replicate n [MicCallback indata false; LoopCallback]).

(** What the sender holds between taking a chunk and finishing its send. *)
Definition in_flight (c : client) : list chunk :=
  match sender_task c with
  | AtSend data => [data]
  | _ => []
  end.

(** The queue of a live sender counts one unfinished task for every chunk
    queued or in flight. *)
Definition tasks_counted (c : client) : Prop :=
  match sender_task c with
  | Finished _ => True
  | _ =>
      Queue.unfinished_tasks (queue c)
      = Z.of_nat (length (in_flight c ++ Queue.items (queue c)))
  end.

(** The accepted chunks are the sent ones, then what the sender holds, then the
    queue, in this order; a sender that has ended may have dropped the one
    chunk it held. *)
Definition fifo (c : client) : Prop :=
  exists lost : list chunk,
    accepted c = sent c ++ lost ++ Queue.items (queue c) /\
    match sender_task c with
    | Finished _ => (length lost <= 1)%nat
    | _ => lost = in_flight c
    end.

(** What holds in every state of a run. *)
Definition invariant (c : client) : Prop :=
  fifo c /\ tasks_counted c /\ (main c = AtRecv -> must_cancel c = false).


(** The end of [audio_stream] once the loop is left: the cancellation reaches
    a running sender, then the main task resumes from [await sender_task]. *)
Definition shutdown (c : client) : list event :=
  (if must_cancel c then [SenderCancelled] else []) ++ [JoinResumes].

(** A sender that was running when the loop was left: it is being cancelled,
    or has ended by the cancellation. *)
Definition cancelling (c : client) : Prop :=
  (main c = AtJoin /\ must_cancel c = true /\ is_finished (sender_task c) = false)
  \/ (sender_task c = Finished CancelledError /\
      (main c = AtJoin \/ main c = Returned)).

(** The exceptions that end the receive loop without an error. *)
Definition quiet_exit (e : exn) : bool :=
  match e with
  | ConnectionClosedOK | CancelledError | KeyboardInterrupt => true
  | _ => false
  end.

(** How [audio_stream] may stand once the loop is left: still joining, or
    finished with a sender that is done. *)
Definition joined (c : client) : Prop :=
  match main c with
  | AtRecv => False
  | AtJoin => True
  | Returned => sender_task c = Finished CancelledError
  | Raised e => sender_task c = Finished e /\ e <> CancelledError
  end.

(** The chunks [cs] captured one after the other without input overflow, each
    put in the queue before the next arrives. *)
Definition capture_each (cs : list chunk) : list event :=
  concat (map (fun x => [MicCallback x false; LoopCallback]) cs).

(** What the receive loop writes to the speaker for a message: a binary
    message that is not empty, and nothing else. *)
Definition playable (m : message) : list chunk :=
  match m with
  | Binary ((_ :: _) as b) => [b]
  | _ => []
  end.

(** The messages [np.frombuffer(..., dtype=np.int16)] accepts: a binary
    message must hold whole 16-bit samples. *)
Definition whole_samples (m : message) : bool :=
  match m with
  | Binary b => Nat.even (length b)
  | Text _ => true
  end.

(** The receive events that end [audio_stream] with an error at once: an
    exception of [recv] that no handler catches, and a binary message with an
    odd number of bytes, which [np.frombuffer] refuses. *)
Definition fatal (ev : event) : option exn :=
  match ev with
  | RecvRaises e => if quiet_exit e then None else Some e
  | RecvReturns (Binary ((_ :: _) as b)) =>
      if Nat.even (length b) then None else Some ValueError
  | _ => None
  end.

(** The queue is within its capacity of 100 chunks. *)
Definition within_capacity (c : client) : Prop :=
  Queue.maxsize (queue c) = 100 /\
  (length (Queue.items (queue c)) <= 100)%nat.

End Client.

(** * Properties *)

(** ** The decoder always has fuel enough *)

Module JsonFacts.
Import Json.

Abbreviation len := String.length.

Lemma skip_ws_length s : (len (skip_ws s) <= len s)%nat.
Proof.
  induction s as [|c s IH]; simpl; [lia|].
  destruct (is_ws c); simpl; lia.
Qed.

Lemma strip_prefix_length lit : forall s r,
  strip_prefix lit s = Some r -> len s = (len lit + len r)%nat.
Proof.
  induction lit as [|a lit IH]; intros s r H; simpl in *.
  - by inversion H.
  - destruct s as [|b s]; [done|].
    destruct (Ascii.eqb a b); [|done].
    apply IH in H. simpl. lia.
Qed.

Lemma scan_constant_length s v r :
  scan_constant s = Some (v, r) -> (len r < len s)%nat.
Proof.
  unfold scan_constant. intros H.
  repeat match type of H with
  | match strip_prefix ?l s with _ => _ end = _ =>
      let E := fresh "E" in
      destruct (strip_prefix l s) eqn:E;
      [apply strip_prefix_length in E; simpl in E; inversion H; subst; lia|]
  end.
  done.
Qed.

Lemma span_digits_length s : forall ds r,
  span_digits s = (ds, r) -> (len r <= len s)%nat.
Proof.
  induction s as [|c s IH]; intros ds r H; simpl in *.
  - inversion H; subst; simpl; lia.
  - destruct (is_digit c).
    + destruct (span_digits s) as [ds' r'] eqn:E. inversion H; subst.
      specialize (IH _ _ eq_refl). lia.
    + inversion H; subst; simpl; lia.
Qed.

Lemma span_digits_progress c s ds r :
  is_digit c = true -> span_digits (String c s) = (ds, r) -> (len r <= len s)%nat.
Proof.
  intros Hd H. simpl in H. rewrite Hd in H.
  destruct (span_digits s) as [ds' r'] eqn:E. inversion H; subst.
  by apply span_digits_length in E.
Qed.

Lemma scan_sign_length s b r : scan_sign s = (b, r) -> (len r <= len s)%nat.
Proof.
  destruct s as [|c s]; simpl; intros H.
  - inversion H; subst; simpl; lia.
  - destruct (code c =? 45); inversion H; subst; simpl; lia.
Qed.

Lemma scan_int_part_length s ip r :
  scan_int_part s = Some (ip, r) -> (len r < len s)%nat.
Proof.
  destruct s as [|d s]; [done|]. unfold scan_int_part.
  destruct (code d =? 48).
  - intros H; inversion H; subst; simpl; lia.
  - destruct (is_digit d) eqn:Hd; [|done].
    intros H. inversion H as [E].
    apply span_digits_progress in E; [simpl; lia|done].
Qed.

Lemma scan_frac_length s fp r : scan_frac s = (fp, r) -> (len r <= len s)%nat.
Proof.
  unfold scan_frac. destruct s as [|dot [|f s]]; intros H;
    try (inversion H; subst; simpl; lia).
  destruct ((code dot =? 46) && is_digit f).
  - apply span_digits_length in H. simpl in *. lia.
  - inversion H; subst; simpl; lia.
Qed.

Lemma scan_exp_length s ex r : scan_exp s = (ex, r) -> (len r <= len s)%nat.
Proof.
  unfold scan_exp. destruct s as [|e s1]; intros H;
    [inversion H; subst; simpl; lia|].
  destruct ((code e =? 101) || (code e =? 69));
    [|inversion H; subst; simpl; lia].
  destruct s1 as [|sg [|d s2]].
  - inversion H; subst; simpl; lia.
  - destruct (is_digit sg); inversion H; subst; simpl; lia.
  - destruct (((code sg =? 43) || (code sg =? 45)) && is_digit d).
    + destruct (span_digits (String d s2)) as [ds rest] eqn:E.
      inversion H; subst. apply span_digits_length in E. simpl in *. lia.
    + destruct (is_digit sg).
      * destruct (span_digits (String sg (String d s2))) as [ds rest] eqn:E.
        inversion H; subst. apply span_digits_length in E. simpl in *. lia.
      * inversion H; subst; simpl; lia.
Qed.

Lemma scan_number_length py s v r :
  scan_number py s = Ok v r -> (len r < len s)%nat.
Proof.
  unfold scan_number.
  destruct (scan_sign s) as [neg s1] eqn:E1.
  destruct (scan_int_part s1) as [[ip s2]|] eqn:E2; [|done].
  destruct (scan_frac s2) as [fp s3] eqn:E3.
  destruct (scan_exp s3) as [ex s4] eqn:E4.
  apply scan_sign_length in E1. apply scan_int_part_length in E2.
  apply scan_frac_length in E3. apply scan_exp_length in E4.
  intros H.
  assert (r = s4) as ->
    by (destruct fp, ex, (exceeds_int_limit py ip); inversion H; done).
  lia.
Qed.

(** Reading a number needs no fuel, and the only exception besides
    [JSONDecodeError] is the [ValueError] of the digit limit. *)
Lemma scan_number_fuel py s : scan_number py s <> NoFuel.
Proof.
  unfold scan_number.
  destruct (scan_sign s) as [neg s1].
  destruct (scan_int_part s1) as [[ip s2]|]; [|done].
  destruct (scan_frac s2) as [fp s3]. destruct (scan_exp s3) as [ex s4].
  by destruct fp, ex, (exceeds_int_limit py ip).
Qed.

Lemma scan_number_stop py s e : scan_number py s = Stop e -> e = ValueError.
Proof.
  unfold scan_number.
  destruct (scan_sign s) as [neg s1].
  destruct (scan_int_part s1) as [[ip s2]|]; [|done].
  destruct (scan_frac s2) as [fp s3]. destruct (scan_exp s3) as [ex s4].
  destruct fp, ex, (exceeds_int_limit py ip); intros H; by inversion H.
Qed.

Lemma scanstring_length_aux n : forall s t r,
  (len s <= n)%nat -> scanstring s = Some (t, r) -> (len r < len s)%nat.
Proof.
  induction n as [|n IH]; intros s t r Hn H.
  - destruct s; [done|simpl in Hn; lia].
  - destruct s as [|c s1]; [done|]. simpl in Hn.
    cbn [scanstring] in H.
    repeat match type of H with
    | (if ?b then _ else _) = _ => destruct b
    | match scanstring ?x with _ => _ end = _ =>
        let E := fresh "E" in
        destruct (scanstring x) as [[? ?]|] eqn:E;
        [apply IH in E; [|simpl in *; lia]|]
    | match ?x with _ => _ end = _ => destruct x
    | Some _ = Some _ => inversion H; subst; clear H
    | None = Some _ => discriminate H
    end; simpl in *; try lia.
Qed.

Lemma scanstring_length s t r :
  scanstring s = Some (t, r) -> (len r < len s)%nat.
Proof. by apply (scanstring_length_aux (len s)). Qed.

(** Case analysis on the next character after whitespace. *)
Ltac next_char rest :=
  let E := fresh "E" in
  let W := fresh "W" in
  pose proof (skip_ws_length rest) as W;
  destruct (skip_ws rest) as [|? ?] eqn:E; simpl in W.

Lemma parse_shorter py n :
  (forall d s v r, scan_once py n d s = Ok v r -> (len r < len s)%nat) /\
  (forall d s acc v r, json_array py n d s acc = Ok v r -> (len r < len s)%nat) /\
  (forall d s acc v r, json_object py n d s acc = Ok v r -> (len r < len s)%nat).
Proof.
  induction n as [|n (IHv & IHa & IHo)]; [by repeat split|].
  repeat split.
  - intros d s v r H. destruct s as [|c s1]; [done|]. cbn [scan_once] in H.
    destruct (code c =? 34).
    { destruct (scanstring s1) as [[t rest]|] eqn:E; [|done].
      apply scanstring_length in E. inversion H; subst. simpl; lia. }
    destruct (code c =? 123).
    { destruct d as [|d]; [done|]. next_char s1; [done|].
      destruct (code _ =? 125).
      - inversion H; subst. simpl; lia.
      - apply IHo in H. simpl in *. lia. }
    destruct (code c =? 91).
    { destruct d as [|d]; [done|]. next_char s1; [done|].
      destruct (code _ =? 93).
      - inversion H; subst. simpl; lia.
      - apply IHa in H. simpl in *. lia. }
    destruct (scan_constant (String c s1)) as [[v' rest]|] eqn:E.
    { apply scan_constant_length in E. by inversion H; subst. }
    by apply scan_number_length in H.
  - intros d s acc v r H. cbn [json_array] in H.
    destruct (scan_once py n d s) as [v0 rest| | |] eqn:E; [|done|done|done].
    apply IHv in E. next_char rest; [done|].
    destruct (code _ =? 93); [inversion H; subst; lia|].
    destruct (code _ =? 44); [|done].
    apply IHa in H. pose proof (skip_ws_length s0). lia.
  - intros d s acc v r H. cbn [json_object] in H.
    destruct s as [|q s1]; [done|].
    destruct (code q =? 34); [|done].
    destruct (scanstring s1) as [[key rest]|] eqn:E; [|done].
    apply scanstring_length in E. next_char rest; [done|].
    destruct (code _ =? 58); [|done].
    destruct (scan_once py n d (skip_ws s)) as [v0 rest2| | |] eqn:E';
      [|done|done|done].
    apply IHv in E'. pose proof (skip_ws_length s). next_char rest2; [done|].
    destruct (code _ =? 125); [inversion H; subst; simpl; lia|].
    destruct (code _ =? 44); [|done].
    apply IHo in H. pose proof (skip_ws_length s0). simpl. lia.
Qed.

(** Twice the length of the text, and one more, is fuel enough at any depth. *)
Lemma parse_fuel py n :
  (forall d s, (2 * len s < n)%nat -> scan_once py n d s <> NoFuel) /\
  (forall d s acc, (2 * len s + 1 < n)%nat -> json_array py n d s acc <> NoFuel) /\
  (forall d s acc, (2 * len s + 1 < n)%nat -> json_object py n d s acc <> NoFuel).
Proof.
  induction n as [|n (IHv & IHa & IHo)]; [repeat split; intros; lia|].
  repeat split.
  - intros d s Hn. destruct s as [|c s1]; [done|]. cbn [scan_once]. simpl in Hn.
    destruct (code c =? 34); [by destruct (scanstring s1) as [[? ?]|]|].
    destruct (code c =? 123).
    { destruct d as [|d]; [done|]. next_char s1; [done|].
      destruct (code _ =? 125); [done|]. apply IHo. simpl. lia. }
    destruct (code c =? 91).
    { destruct d as [|d]; [done|]. next_char s1; [done|].
      destruct (code _ =? 93); [done|]. apply IHa. simpl. lia. }
    destruct (scan_constant _) as [[? ?]|]; [done|].
    apply scan_number_fuel.
  - intros d s acc Hn. cbn [json_array].
    destruct (scan_once py n d s) as [v0 rest| | |] eqn:E; [|done|done|].
    + apply parse_shorter in E. next_char rest; [done|].
      destruct (code _ =? 93); [done|].
      destruct (code _ =? 44); [|done].
      apply IHa. pose proof (skip_ws_length s0). lia.
    + exfalso. revert E. apply IHv. lia.
  - intros d s acc Hn. cbn [json_object].
    destruct s as [|q s1]; [done|]. simpl in Hn.
    destruct (code q =? 34); [|done].
    destruct (scanstring s1) as [[key rest]|] eqn:E; [|done].
    apply scanstring_length in E. next_char rest; [done|].
    destruct (code _ =? 58); [|done].
    pose proof (skip_ws_length s).
    destruct (scan_once py n d (skip_ws s)) as [v0 rest2| | |] eqn:E';
      [|done|done|].
    + apply parse_shorter in E'. next_char rest2; [done|].
      destruct (code _ =? 125); [done|].
      destruct (code _ =? 44); [|done].
      apply IHo. pose proof (skip_ws_length s0). lia.
    + exfalso. revert E'. apply IHv. lia.
Qed.

(** The exceptions that end a scan are those of the two limits. *)
Lemma parse_stop py n :
  (forall d s e, scan_once py n d s = Stop e ->
     e = RecursionError \/ e = ValueError) /\
  (forall d s acc e, json_array py n d s acc = Stop e ->
     e = RecursionError \/ e = ValueError) /\
  (forall d s acc e, json_object py n d s acc = Stop e ->
     e = RecursionError \/ e = ValueError).
Proof.
  induction n as [|n (IHv & IHa & IHo)]; [by repeat split|].
  repeat split.
  - intros d s e H. destruct s as [|c s1]; [done|]. cbn [scan_once] in H.
    destruct (code c =? 34); [by destruct (scanstring s1) as [[? ?]|]|].
    destruct (code c =? 123).
    { destruct d as [|d]; [left; by inversion H|].
      destruct (skip_ws s1) as [|c' r']; [done|].
      destruct (code c' =? 125); [done|]. by apply IHo in H. }
    destruct (code c =? 91).
    { destruct d as [|d]; [left; by inversion H|].
      destruct (skip_ws s1) as [|c' r']; [done|].
      destruct (code c' =? 93); [done|]. by apply IHa in H. }
    destruct (scan_constant _) as [[? ?]|]; [done|].
    right. by apply scan_number_stop in H.
  - intros d s acc e H. cbn [json_array] in H.
    destruct (scan_once py n d s) as [v0 rest| |e0|] eqn:E; [|done| |done].
    + destruct (skip_ws rest) as [|c r]; [done|].
      destruct (code c =? 93); [done|].
      destruct (code c =? 44); [|done]. by apply IHa in H.
    + inversion H; subst. by apply IHv in E.
  - intros d s acc e H. cbn [json_object] in H.
    destruct s as [|q s1]; [done|].
    destruct (code q =? 34); [|done].
    destruct (scanstring s1) as [[key rest]|]; [|done].
    destruct (skip_ws rest) as [|colon r2]; [done|].
    destruct (code colon =? 58); [|done].
    destruct (scan_once py n d (skip_ws r2)) as [v0 rest2| |e0|] eqn:E;
      [|done| |done].
    + destruct (skip_ws rest2) as [|c r3]; [done|].
      destruct (code c =? 125); [done|].
      destruct (code c =? 44); [|done]. by apply IHo in H.
    + inversion H; subst. by apply IHv in E.
Qed.

(** The fuel [loads] gives its scan never runs out. *)
Lemma loads_fuel py s :
  scan_once py (S (2 * len (skip_ws s))) (depth_left py) (skip_ws s) <> NoFuel.
Proof. apply parse_fuel. lia. Qed.

(** [json.loads] returns a value or raises one of three exceptions. *)
Lemma loads_cases py s :
  (exists v, loads py s = Return v) \/ loads py s = Raise JSONDecodeError
  \/ loads py s = Raise RecursionError \/ loads py s = Raise ValueError.
Proof.
  unfold loads. pose proof (loads_fuel py s) as F.
  destruct (scan_once _ _ _ _) as [v rest| |e|] eqn:E.
  - destruct (skip_ws rest); eauto.
  - by right; left.
  - apply parse_stop in E as [->| ->]; auto.
  - done.
Qed.

Lemma loads_raises py s e :
  loads py s = Raise e ->
  e = JSONDecodeError \/ e = RecursionError \/ e = ValueError.
Proof.
  intros H. destruct (loads_cases py s) as [[v E]|[E|[E|E]]];
    rewrite E in H; inversion H; auto.
Qed.

(** Brackets opened deeper than the interpreter allows raise
    [RecursionError], although the text is not JSON either. *)
Lemma scan_brackets py d : forall n fuel,
  (d < n)%nat -> (2 * d < fuel)%nat ->
  scan_once py fuel d (brackets n) = Stop RecursionError.
Proof.
  induction d as [|d IH]; intros n fuel Hn Hf.
  - destruct fuel as [|fuel]; [lia|]. destruct n as [|n]; [lia|]. done.
  - destruct fuel as [|[|fuel]]; [lia|lia|].
    destruct n as [|[|n]]; [lia|lia|].
    change (brackets (S (S n))) with (String (chr 91) (brackets (S n))).
    cbn [scan_once].
    change (code (chr 91) =? 34) with false.
    change (code (chr 91) =? 123) with false.
    change (code (chr 91) =? 91) with true. cbv iota.
    change (skip_ws (brackets (S n))) with (brackets (S n)).
    change (brackets (S n)) with (String (chr 91) (brackets n)) at 1.
    cbv iota. change (code (chr 91) =? 93) with false. cbv iota.
    change (String (chr 91) (brackets n)) with (brackets (S n)).
    cbn [json_array]. rewrite IH by lia. done.
Qed.

Lemma brackets_length n : len (brackets n) = n.
Proof. induction n; simpl; congruence. Qed.

Lemma loads_brackets py n :
  (depth_left py < n)%nat -> loads py (brackets n) = Raise RecursionError.
Proof.
  intros Hn. unfold loads.
  assert (skip_ws (brackets n) = brackets n) as -> by (by destruct n).
  rewrite scan_brackets; [done|done|]. rewrite brackets_length. lia.
Qed.

(** An integer literal longer than the digit limit raises [ValueError],
    although it is JSON. *)
Lemma span_ones n : span_digits (ones n) = (ones n, "").
Proof. induction n as [|n IH]; [done|]. simpl. by rewrite IH. Qed.

Lemma ones_length n : len (ones n) = n.
Proof. induction n; simpl; congruence. Qed.

Lemma loads_ones py n :
  (640 < n)%nat -> (0 < int_max_str_digits py)%nat ->
  (int_max_str_digits py < n)%nat ->
  loads py (ones n) = Raise ValueError.
Proof.
  intros H1 H2 H3. unfold loads.
  destruct n as [|n]; [lia|].
  change (skip_ws (ones (S n))) with (ones (S n)).
  assert (scan_number py (ones (S n)) = Stop ValueError) as E.
  { unfold scan_number.
    change (scan_sign (ones (S n))) with (false, ones (S n)). cbv iota beta.
    change (scan_int_part (ones (S n))) with (Some (span_digits (ones (S n)))).
    rewrite span_ones. cbn [scan_frac scan_exp].
    unfold exceeds_int_limit. rewrite ones_length.
    by rewrite !(proj2 (Nat.ltb_lt _ _)). }
  change (ones (S n)) with (String (chr 49) (ones n)) at 2.
  cbn [scan_once].
  change (code (chr 49) =? 34) with false.
  change (code (chr 49) =? 123) with false.
  change (code (chr 49) =? 91) with false. cbv iota.
  change (String (chr 49) (ones n)) with (ones (S n)).
  change (scan_constant (ones (S n))) with (@None (pyval * string)).
  cbv iota. by rewrite E.
Qed.

End JsonFacts.

(** ** The frame codec *)

Module CodecFacts.
Import Bot.

Lemma deserialize_binary py s k b :
  deserialize py (binary k b) s
  = (s, Return (Some (InputAudioRawFrame b (sample_rate_of s) (channels_of s)))).
Proof. by destruct k. Qed.

(** What [deserialize] does with a text that decodes to a dict ... *)
Lemma deserialize_dict py s text d :
  Json.loads py text = Return (PyDict d) ->
  deserialize py (PStr text) s =
    if eq_str (dict_get d "type") "start" then
      let sr := dict_get_default d "audio_in_sample_rate" (sample_rate_of s) in
      let ch := dict_get_default d "audio_in_channels" (channels_of s) in
      (Server (Serializer sr ch) (logged s) (files s),
       Return (Some (Start (StartFrame sr ch))))
    else (s, Return None).
Proof.
  intros H. unfold deserialize, try_except, bind, lift. rewrite H. simpl.
  destruct (eq_str _ _); [|done]. by destruct s as [[sr ch] lg fs].
Qed.

(** ... to any other value ... *)
Lemma deserialize_non_dict py s text v :
  Json.loads py text = Return v ->
  is_dict v = false ->
  deserialize py (PStr text) s = (s, Raise AttributeError).
Proof.
  intros H Hv. unfold deserialize, try_except, bind, lift. rewrite H.
  by destruct v.
Qed.

(** ... with a text the decoder finds malformed ... *)
Lemma deserialize_malformed py s text :
  Json.loads py text = Raise JSONDecodeError ->
  deserialize py (PStr text) s = (s, Return None).
Proof.
  intros H. unfold deserialize, try_except, bind, lift. by rewrite H.
Qed.

(** ... and with a text on which the decoder raises anything else. *)
Lemma deserialize_raises py s text e :
  Json.loads py text = Raise e ->
  e <> JSONDecodeError ->
  deserialize py (PStr text) s = (s, Raise e).
Proof.
  intros H He. unfold deserialize, try_except, bind, lift. rewrite H.
  by destruct e.
Qed.

Lemma perform_keeps_self py c s :
  renegotiates py c = false -> self (fst (perform py c s)) = self s.
Proof.
  destruct c as [f|f|data]; simpl; intros H.
  - unfold setup, bind, gets, set_sample_rate, modify, py_or. simpl.
    rewrite H. by destruct s as [[] ? ?].
  - unfold serialize. by destruct (as_AudioRawFrame f).
  - destruct data as [b|b|text|]; try done.
    destruct (Json.loads py text) as [v|e] eqn:E.
    + destruct v; try (by rewrite (deserialize_non_dict py s text _ E)).
      rewrite (deserialize_dict _ _ _ _ E). by rewrite H.
    + unfold deserialize, try_except, bind, lift. rewrite E.
      by destruct e.
Qed.

Lemma session_keeps_self py cs : forall s,
  forallb (fun c => negb (renegotiates py c)) cs = true ->
  self (fst (session py cs s)) = self s.
Proof.
  induction cs as [|c cs IH]; intros s H; [done|].
  simpl in H. apply andb_true_iff in H as [Hc Hcs].
  apply negb_true_iff in Hc.
  cbn [session].
  destruct (perform py c s) as [s1 o] eqn:E1.
  destruct (session py cs s1) as [s2 os] eqn:E2. simpl.
  change s2 with (fst (s2, os)). rewrite <- E2, (IH _ Hcs).
  change s1 with (fst (s1, o)). rewrite <- E1. by apply perform_keeps_self.
Qed.

(** C1, as the code has it: after a start-control text with
    audio_in_sample_rate=8000 and audio_in_channels=1 has been deserialized,
    every binary payload deserialized later in the session, as long as
    nothing renegotiates in between (no further start-control text, no
    [setup] with a true input sample rate), is wrapped as an input-audio frame
    tagged 8000 Hz, 1 channel, whatever the parameters were before the
    start-control text. *)
Theorem C1_start_then_binary (py : interpreter) (s : server) (text : string)
    (d : list (string * pyval)) (cs : list call) (as_bytearray : bool)
    (b : list byte) :
  Json.loads py text = Return (PyDict d) ->
  dict_get d "type" = Some (PyStr "start") ->
  dict_get d "audio_in_sample_rate" = Some (PyInt 8000) ->
  dict_get d "audio_in_channels" = Some (PyInt 1) ->
  forallb (fun c => negb (renegotiates py c)) cs = true ->
  let s1 := fst (deserialize py (PStr text) s) in
  let s2 := fst (session py cs s1) in
  self s1 = Serializer (PyInt 8000) (PyInt 1) /\
  deserialize py (binary as_bytearray b) s2
  = (s2, Return (Some (InputAudioRawFrame b (PyInt 8000) (PyInt 1)))).
Proof.
  intros Hl Ht Hr Hc Hcs s1 s2.
  assert (self s1 = Serializer (PyInt 8000) (PyInt 1)) as H1.
  { subst s1. rewrite (deserialize_dict _ _ _ _ Hl), Ht. cbn [eq_str String.eqb].
    unfold dict_get_default. by rewrite Hr, Hc. }
  split; [done|].
  rewrite deserialize_binary. unfold sample_rate_of, channels_of.
  subst s2. by rewrite (session_keeps_self py cs s1 Hcs), H1.
Qed.

Lemma C1_witness :
  let s := Server (Serializer (PyInt 16000) (PyInt 1)) [] ∅ in
  let cs := [Deserialize (PBytes [x01; x02]); Deserialize (PStr "{not json");
             Deserialize (PByteArray [x03; x04])] in
  let s1 := fst (deserialize cpython (PStr start_8000_mono) s) in
  let s2 := fst (session cpython cs s1) in
  self s1 = Serializer (PyInt 8000) (PyInt 1) /\
  deserialize cpython (binary false [x05; x06]) s2
  = (s2, Return (Some (InputAudioRawFrame [x05; x06] (PyInt 8000) (PyInt 1)))).
Proof.
  apply (C1_start_then_binary cpython _ start_8000_mono
           [("type", PyStr "start"); ("audio_in_sample_rate", PyInt 8000);
            ("audio_in_channels", PyInt 1)]); reflexivity.
Defined.

(** C1 as stated fails: not every later binary payload is tagged 8000 Hz,
    1 channel.  Once a second start-control text (44100 Hz, 2 channels) has
    been deserialized, the binary payload that follows is tagged 44100 Hz,
    2 channels; once [setup] has run with a 16000 Hz input rate, it is tagged
    16000 Hz. *)
Lemma C1_counterexample :
  let s1 := fst (deserialize cpython (PStr start_8000_mono)
                   (Server RawPCMSerializer [] ∅)) in
  let s2 := fst (deserialize cpython (PStr (Json.dq
    "{'type':'start','audio_in_sample_rate':44100,'audio_in_channels':2}")) s1) in
  let s3 := fst (setup (StartFrame (PyInt 16000) (PyInt 1)) s1) in
  self s1 = Serializer (PyInt 8000) (PyInt 1) /\
  snd (deserialize cpython (PBytes [x01; x02]) s2)
  = Return (Some (InputAudioRawFrame [x01; x02] (PyInt 44100) (PyInt 2))) /\
  snd (deserialize cpython (PBytes [x01; x02]) s2)
  <> Return (Some (InputAudioRawFrame [x01; x02] (PyInt 8000) (PyInt 1))) /\
  snd (deserialize cpython (PBytes [x01; x02]) s3)
  = Return (Some (InputAudioRawFrame [x01; x02] (PyInt 16000) (PyInt 1))) /\
  snd (deserialize cpython (PBytes [x01; x02]) s3)
  <> Return (Some (InputAudioRawFrame [x01; x02] (PyInt 8000) (PyInt 1))).
Proof. vm_compute. repeat split; done. Qed.

(** C2, as the code has it: a text payload on which [json.loads] raises
    [JSONDecodeError] yields no frame, raises nothing and leaves the
    negotiated sample rate and channel count (the whole state, in fact) as
    they were.  [json.loads] raises nothing else but [RecursionError] and
    [ValueError], at the interpreter's limits; these are not caught:
    [deserialize] raises them, the state again as it was. *)
Theorem C2_malformed_json_ignored (py : interpreter) (s : server)
    (text : string) (e : exn) :
  Json.loads py text = Raise e ->
  (e = JSONDecodeError \/ e = RecursionError \/ e = ValueError) /\
  deserialize py (PStr text) s
  = (s, if is_JSONDecodeError e then Return None else Raise e) /\
  self (fst (deserialize py (PStr text) s)) = self s.
Proof.
  intros H. split; [by apply (JsonFacts.loads_raises py text)|].
  destruct (is_JSONDecodeError e) eqn:E.
  - destruct e; try done. by rewrite (deserialize_malformed py s text H).
  - rewrite (deserialize_raises py s text e H); [done|]. by intros ->.
Qed.

Lemma C2_witness :
  ((JSONDecodeError = JSONDecodeError \/ JSONDecodeError = RecursionError
    \/ JSONDecodeError = ValueError) /\
   deserialize cpython (PStr "{not json") (Server RawPCMSerializer [] ∅)
   = (Server RawPCMSerializer [] ∅, Return None) /\
   self (fst (deserialize cpython (PStr "{not json")
                (Server RawPCMSerializer [] ∅)))
   = RawPCMSerializer) /\
  ((RecursionError = JSONDecodeError \/ RecursionError = RecursionError
    \/ RecursionError = ValueError) /\
   deserialize cpython (PStr (Json.brackets 1000)) (Server RawPCMSerializer [] ∅)
   = (Server RawPCMSerializer [] ∅, Raise RecursionError) /\
   self (fst (deserialize cpython (PStr (Json.brackets 1000))
                (Server RawPCMSerializer [] ∅)))
   = RawPCMSerializer).
Proof.
  split.
  - exact (C2_malformed_json_ignored cpython (Server RawPCMSerializer [] ∅)
             "{not json" JSONDecodeError eq_refl).
  - apply (C2_malformed_json_ignored cpython (Server RawPCMSerializer [] ∅)
             (Json.brackets 1000) RecursionError).
    vm_compute. reflexivity.
Defined.

(** C2 as stated fails: a thousand opening brackets are not JSON (a decoder
    with room for them reports [JSONDecodeError]), yet [deserialize] raises:
    the decoder runs into the recursion limit before it reaches the end of
    the text, and [RecursionError] is not caught. *)
Lemma C2_counterexample :
  Json.loads (Interpreter 2000 4300) (Json.brackets 1000)
  = Raise JSONDecodeError /\
  Json.loads cpython (Json.brackets 1000) = Raise RecursionError /\
  deserialize cpython (PStr (Json.brackets 1000)) (Server RawPCMSerializer [] ∅)
  = (Server RawPCMSerializer [] ∅, Raise RecursionError).
Proof. vm_compute. repeat split; done. Qed.

(** C9: the tolerance of bad text is not total.  A text that is valid JSON
    but not an object makes [deserialize] raise [AttributeError] (the lookup
    of [obj.get] fails), which the handler for [JSONDecodeError] does not
    catch; the state is untouched. *)
Theorem C9_non_object_json_raises (py : interpreter) (s : server)
    (text : string) (v : pyval) :
  Json.loads py text = Return v ->
  is_dict v = false ->
  deserialize py (PStr text) s = (s, Raise AttributeError).
Proof.
  apply deserialize_non_dict.
Qed.

Lemma C9_witness :
  deserialize cpython (PStr "5") (Server RawPCMSerializer [] ∅)
    = (Server RawPCMSerializer [] ∅, Raise AttributeError) /\
  deserialize cpython (PStr "[1,2]") (Server RawPCMSerializer [] ∅)
    = (Server RawPCMSerializer [] ∅, Raise AttributeError).
Proof.
  split.
  - apply (C9_non_object_json_raises cpython _ "5" (PyInt 5)); reflexivity.
  - apply (C9_non_object_json_raises cpython _ "[1,2]"
             (PyList [PyInt 1; PyInt 2]));
      reflexivity.
Defined.

(** C10: a text payload that decodes to a JSON object whose "type" is not
    the string "start", or that has no "type" key, yields no frame and leaves
    the negotiated parameters unchanged. *)
Theorem C10_non_start_object_ignored (py : interpreter) (s : server)
    (text : string)
    (d : list (string * pyval)) :
  Json.loads py text = Return (PyDict d) ->
  dict_get d "type" <> Some (PyStr "start") ->
  deserialize py (PStr text) s = (s, Return None).
Proof.
  intros H Ht. rewrite (deserialize_dict _ _ _ _ H).
  destruct (dict_get d "type") as [[| | | | |ty| |]|] eqn:E; try done.
  simpl. destruct (String.eqb_spec ty "start"); [by subst|done].
Qed.

Lemma C10_witness :
  deserialize cpython (PStr (Json.dq "{'type':'stop','audio_in_sample_rate':8000}"))
    (Server RawPCMSerializer [] ∅) = (Server RawPCMSerializer [] ∅, Return None)
  /\ deserialize cpython (PStr (Json.dq "{'audio_in_sample_rate':8000}"))
       (Server RawPCMSerializer [] ∅) = (Server RawPCMSerializer [] ∅, Return None).
Proof.
  split.
  - apply (C10_non_start_object_ignored cpython _ _
             [("type", PyStr "stop"); ("audio_in_sample_rate", PyInt 8000)]);
      [reflexivity | discriminate].
  - apply (C10_non_start_object_ignored cpython _ _
             [("audio_in_sample_rate", PyInt 8000)]);
      [reflexivity | discriminate].
Defined.

(** C8: for an audio frame, [serialize] returns the frame's audio bytes as
    they are: nothing is put before, after or between them.  The serializer
    and the files are untouched; one debug line is logged. *)
Theorem C8_serialize_raw_audio (s : server) (f : frame) (audio : list byte) :
  as_AudioRawFrame f = Some audio ->
  snd (serialize f s) = Return (Some audio) /\
  self (fst (serialize f s)) = self s /\
  files (fst (serialize f s)) = files s.
Proof.
  intros H. unfold serialize. rewrite H. done.
Qed.

Lemma C8_witness :
  let f := OutputAudioRawFrame [x00; x01; xff; x7f] (PyInt 24000) (PyInt 1) in
  let s := Server RawPCMSerializer [] ∅ in
  snd (serialize f s) = Return (Some [x00; x01; xff; x7f]) /\
  self (fst (serialize f s)) = self s /\
  files (fst (serialize f s)) = files s.
Proof. apply C8_serialize_raw_audio. reflexivity. Defined.

(** C4, as the code has it: the sample rate and the channel count change only
    when a start-control text is deserialized or, for the sample rate alone,
    when [setup] receives a frame with a true input sample rate.  Through any
    run of other calls both stay what they were, and [setup] never changes the
    channel count. *)
Theorem C4_fixed_between_negotiations (py : interpreter) (cs : list call)
    (s : server) :
  forallb (fun c => negb (renegotiates py c)) cs = true ->
  self (fst (session py cs s)) = self s /\
  forall f, channels_of (fst (perform py (Setup f) s)) = channels_of s.
Proof.
  intros H. split; [by apply session_keeps_self|done].
Qed.

Lemma C4_witness :
  let s := Server (Serializer (PyInt 8000) (PyInt 1)) [] ∅ in
  let cs := [Deserialize (PBytes [x01; x02]); Deserialize (PStr "{not json");
             Deserialize (PStr (Json.dq "{'type':'stop'}"));
             Deserialize (PStr "5");
             Serialize (OutputAudioRawFrame [x03] (PyInt 24000) (PyInt 1));
             Setup (StartFrame (PyInt 0) (PyInt 2))] in
  self (fst (session cpython cs s)) = self s /\
  forall f, channels_of (fst (perform cpython (Setup f) s)) = channels_of s.
Proof. apply C4_fixed_between_negotiations. reflexivity. Defined.

(** C4 as stated fails: with 8000 Hz, 1 channel applied, a second start-control
    text moves the session to 44100 Hz, 2 channels, and pipeline initialisation
    with a 16000 Hz input rate moves it to 16000 Hz. *)
Lemma C4_counterexample :
  let s := fst (deserialize cpython (PStr start_8000_mono) (Server RawPCMSerializer [] ∅)) in
  let s2 := fst (deserialize cpython (PStr (Json.dq
    "{'type':'start','audio_in_sample_rate':44100,'audio_in_channels':2}")) s) in
  let s3 := fst (setup (StartFrame (PyInt 16000) (PyInt 1)) s) in
  self s = Serializer (PyInt 8000) (PyInt 1) /\
  self s2 = Serializer (PyInt 44100) (PyInt 2) /\ self s2 <> self s /\
  self s3 = Serializer (PyInt 16000) (PyInt 1) /\ self s3 <> self s.
Proof. vm_compute. repeat split; done. Qed.

End CodecFacts.

(** ** The WAV dump *)

Module WaveFacts.
Import Struct.

Lemma Z_of_byte_of_Z z : Z_of_byte (byte_of_Z z) = z mod 256.
Proof.
  unfold Z_of_byte, byte_of_Z.
  assert (0 <= z mod 256 < 256) as Hr by (apply Z.mod_pos_bound; lia).
  rewrite (Byte.to_of_N (N_of_ascii (ascii_of_N (Z.to_N (z mod 256))))).
  - rewrite N_ascii_embedding by lia. lia.
  - symmetry. apply byte_of_ascii_via_N.
Qed.

Lemma le_int_le_bytes n : forall v,
  0 <= v < 256 ^ Z.of_nat n -> le_int (le_bytes n v) = v.
Proof.
  induction n as [|n IH]; intros v Hv.
  - simpl in *. lia.
  - cbn [le_bytes le_int]. rewrite Z_of_byte_of_Z.
    rewrite Nat2Z.inj_succ, Z.pow_succ_r in Hv by lia.
    rewrite IH.
    + pose proof (Z.div_mod v 256). lia.
    + split; [apply Z.div_pos; lia|].
      apply Z.div_lt_upper_bound; lia.
Qed.

Lemma pack_L_ok v : 0 <= v < 2 ^ 32 -> pack_L v = Return (le_bytes 4 v).
Proof.
  intros [H1 H2]. unfold pack_L.
  apply Z.leb_le in H1. apply Z.ltb_lt in H2. by rewrite H1, H2.
Qed.

Lemma pack_H_ok v : 0 <= v < 2 ^ 16 -> pack_H v = Return (le_bytes 2 v).
Proof.
  intros [H1 H2]. unfold pack_H.
  apply Z.leb_le in H1. apply Z.ltb_lt in H2. by rewrite H1, H2.
Qed.

Import Wave.

Lemma write_at_end data f :
  BytesIO.pos f = length (BytesIO.buf f) ->
  BytesIO.write data f
  = BytesIO.Make (BytesIO.buf f ++ data) (length (BytesIO.buf f) + length data).
Proof.
  intros H. unfold BytesIO.write. rewrite H, Nat.sub_diag. simpl.
  rewrite app_nil_r, take_ge, drop_ge by lia. by rewrite app_nil_r.
Qed.

Lemma write_header_ok R n :
  0 < R < 2 ^ 31 -> 0 <= n -> n + 36 < 2 ^ 32 ->
  _write_header n (configured R)
  = (WaveWrite (BytesIO.Make (header 1 R 2 (n / 2 * 2)) 44) true 1 2 R (n / 2)
       0 0 (n / 2 * 2) true 4 40, Return tt).
Proof.
  intros HR Hn Hn'.
  assert (0 <= n / 2 * 2 <= n) as Hdl.
  { pose proof (Z.div_mod n 2). pose proof (Z.mod_pos_bound n 2). lia. }
  unfold _write_header, pack_header, bind, gets, modify, raise, ret, lift,
    file_write, file_tell.
  cbn.
  replace (n / (1 * 2) * 1 * 2) with (n / 2 * 2) by (change (1 * 2) with 2; lia).
  change (n / (1 * 2)) with (n / 2).
  change (1 * 2) with 2. change (2 * 8) with 16.
  replace (1 * R * 2) with (R * 2) by lia.
  rewrite !pack_L_ok by lia. rewrite !pack_H_ok by (unfold WAVE_FORMAT_PCM; lia).
  cbn.
  replace (1 * R * 2) with (R * 2) by lia.
  reflexivity.
Qed.

Lemma header_length nch fr sw dl : length (header nch fr sw dl) = 44%nat.
Proof. reflexivity. Qed.

Local Opaque _write_header.

Lemma writeframes_ok R audio :
  0 < R < 2 ^ 31 -> py_len audio + 36 < 2 ^ 32 ->
  writeframes audio (configured R) = (written R audio, Return tt).
Proof.
  intros HR Hn.
  assert (0 <= py_len audio) as Hn0 by (unfold py_len; lia).
  unfold writeframes, writeframesraw, _ensure_header_written, bind, gets,
    modify, raise, ret, file_write.
  cbn. assert ((R =? 0) = false) as -> by lia.
  rewrite write_header_ok by lia. cbn -[header Z.mul Z.div Z.add].
  unfold on_buffer. cbn [buffer]. rewrite write_at_end by reflexivity.
  cbn [BytesIO.buf]. rewrite header_length.
  cbn -[header Z.mul Z.div Z.add].
  set (n := py_len audio). fold n in Hn, Hn0.
  change (1 * 2) with 2. change (2 * 1) with 2.
  rewrite ?Z.add_0_l.
  destruct (Z.eqb_spec (n / 2 * 2) n) as [E|E]; cbn -[header Z.mul Z.div Z.add].
  - unfold written. fold n. by rewrite E.
  - unfold _patchheader, bind, gets, modify, raise, ret, lift, file_write,
      file_tell, file_seek.
    cbn -[header Z.mul Z.div Z.add pack_L].
    destruct (Z.eqb_spec n (n / 2 * 2)) as [E'|_]; [by symmetry in E'|].
    rewrite !pack_L_ok by lia.
    unfold written. fold n. cbn. reflexivity.
Qed.

Local Transparent _write_header.

Lemma close_written R audio :
  close (written R audio) = (set_file false (written R audio), Return tt).
Proof.
  unfold close, _ensure_header_written, bind, gets, ret.
  cbn -[header Z.mul Z.div Z.add]. by rewrite Z.eqb_refl.
Qed.

Local Opaque writeframes close.

Lemma with_open_ok R audio :
  0 < R < 2 ^ 31 -> py_len audio + 36 < 2 ^ 32 ->
  with_open BytesIO.empty
    (bind (setsampwidth 2) (fun _ =>
     bind (setnchannels 1) (fun _ =>
     bind (setframerate R) (fun _ => writeframes audio))))
  = (set_file false (written R audio), Return tt).
Proof.
  intros HR Hn.
  unfold with_open, setsampwidth, setnchannels, setframerate, bind, gets,
    modify, raise.
  cbn. assert ((R <=? 0) = false) as -> by lia. cbn.
  change (set_framerate R _) with (configured R).
  rewrite writeframes_ok by done.
  by rewrite close_written.
Qed.

Local Transparent writeframes close.

(** Reading back what the writer produced. *)
Lemma read_written R audio :
  0 < R < 2 ^ 31 -> py_len audio + 36 < 2 ^ 32 ->
  WavFile.read (header 1 R 2 (py_len audio) ++ audio)
  = Some (WavFile.Info (36 + py_len audio) 1 2 R (R * 2) 2 (py_len audio) audio).
Proof.
  intros HR Hn.
  assert (0 <= py_len audio) as Hn0 by (unfold py_len; lia).
  set (n := py_len audio) in *.
  unfold WavFile.read.
  change (WavFile.tag 0 "RIFF" (header 1 R 2 n ++ audio)) with true.
  change (WavFile.tag 8 "WAVE" (header 1 R 2 n ++ audio)) with true.
  change (WavFile.tag 12 "fmt " (header 1 R 2 n ++ audio)) with true.
  change (WavFile.tag 36 "data" (header 1 R 2 n ++ audio)) with true.
  change (WavFile.field 16 4 (header 1 R 2 n ++ audio)) with (le_bytes 4 16).
  change (WavFile.field 20 2 (header 1 R 2 n ++ audio)) with (le_bytes 2 1).
  change (WavFile.field 4 4 (header 1 R 2 n ++ audio)) with (le_bytes 4 (36 + n)).
  change (WavFile.field 22 2 (header 1 R 2 n ++ audio)) with (le_bytes 2 1).
  change (WavFile.field 34 2 (header 1 R 2 n ++ audio)) with (le_bytes 2 (2 * 8)).
  change (WavFile.field 24 4 (header 1 R 2 n ++ audio)) with (le_bytes 4 R).
  change (WavFile.field 28 4 (header 1 R 2 n ++ audio))
    with (le_bytes 4 (1 * R * 2)).
  change (WavFile.field 32 2 (header 1 R 2 n ++ audio)) with (le_bytes 2 (1 * 2)).
  change (WavFile.field 40 4 (header 1 R 2 n ++ audio)) with (le_bytes 4 n).
  change (drop 44 (header 1 R 2 n ++ audio)) with audio.
  rewrite !le_int_le_bytes by (simpl Z.of_nat; lia).
  change (2 * 8) with 16. change ((16 + 7) / 8) with 2.
  change (1 * 2) with 2. replace (1 * R * 2) with (R * 2) by lia.
  reflexivity.
Qed.

Import Bot.

Lemma digit_is_digit n : Json.is_digit (digit n) = true.
Proof.
  unfold Json.is_digit, digit, Json.code, Json.chr.
  pose proof (Z.mod_pos_bound n 10 ltac:(lia)) as Hm.
  rewrite N_ascii_embedding by lia. rewrite Z2N.id by lia.
  apply andb_true_iff. split; lia.
Qed.

Lemma strftime_is_timestamp now : is_timestamp (strftime now) = true.
Proof.
  unfold is_timestamp, strftime, pad4, pad2. cbv -[digit Json.is_digit Z.div].
  by rewrite !digit_is_digit.
Qed.

Lemma save_audio_empty now server_name R nch s :
  save_audio now server_name [] R nch s
  = (Server (self s) (logged s ++ [LoguruInfo "No audio data to save"]) (files s),
     Return tt).
Proof. reflexivity. Qed.

Local Opaque with_open.

Lemma save_audio_nonempty now server_name audio R s :
  0 < py_len audio -> py_len audio + 36 < 2 ^ 32 -> 0 < R < 2 ^ 31 ->
  save_audio now server_name audio R 1 s
  = (Server (self s)
       (logged s ++ [LoguruInfo ("Merged audio saved to "
                                 ++ recording_name server_name now)%string])
       (<[recording_name server_name now := header 1 R 2 (py_len audio) ++ audio]>
          (files s)),
     Return tt).
Proof.
  intros HN HN' HR. unfold save_audio.
  assert ((0 <? py_len audio) = true) as -> by lia.
  rewrite with_open_ok by done.
  reflexivity.
Qed.

Local Transparent with_open.

Lemma pack_header_bad dl R w :
  2 ^ 31 <= R \/ 2 ^ 32 <= 36 + dl ->
  pack_header dl 1 R 2 w = (w, Raise StructError).
Proof.
  intros H. unfold pack_header, bind, lift, ret, pack_L, pack_H.
  repeat match goal with
  | |- context [if ?b then _ else _] => destruct b eqn:?
  end; try reflexivity.
  exfalso. lia.
Qed.

Lemma write_header_bad b fl nf nfw dw dl hw p1 p2 R init :
  2 ^ 31 <= R \/ 2 ^ 32 <= 36 + (if nf =? 0 then init / 2 else nf) * 2 ->
  exists b' p1',
  _write_header init (WaveWrite b fl 1 2 R nf nfw dw dl hw p1 p2)
  = (WaveWrite b' fl 1 2 R (if nf =? 0 then init / 2 else nf) nfw dw
       ((if nf =? 0 then init / 2 else nf) * 2) hw p1' p2, Raise StructError).
Proof.
  intros H.
  unfold _write_header, bind, gets, modify, raise, ret, file_write, file_tell.
  cbn -[pack_header Z.div Z.mul BytesIO.write].
  change (1 * 2) with 2.
  destruct (nf =? 0); cbn -[pack_header Z.div Z.mul BytesIO.write];
    rewrite ?Z.mul_1_r; rewrite pack_header_bad by done; eauto.
Qed.
Local Opaque _write_header.

Lemma with_open_bad R audio :
  0 < py_len audio ->
  R <= 0 \/ 2 ^ 31 <= R \/ 2 ^ 32 <= py_len audio + 36 ->
  exists w e,
    with_open BytesIO.empty
      (bind (setsampwidth 2) (fun _ =>
       bind (setnchannels 1) (fun _ =>
       bind (setframerate R) (fun _ => writeframes audio))))
    = (w, Raise e).
Proof.
  intros HN Hbad.
  destruct (Z.leb_spec R 0) as [HR|HR].
  - (* the rate is refused *)
    unfold with_open, setsampwidth, setnchannels, setframerate, close,
      _ensure_header_written, bind, gets, modify, raise, ret.
    cbn. assert ((R <=? 0) = true) as -> by lia. cbn. eauto.
  - (* the header does not fit *)
    set (n := py_len audio) in *.
    assert (2 ^ 31 <= R \/ 2 ^ 32 <= 36 + n / 2 * 2) as Hbad'.
    { destruct Hbad as [?|[?|?]]; [lia|by left|right].
      pose proof (Z.div_mod n 2). pose proof (Z.mod_pos_bound n 2).
      assert (n mod 2 = 0 \/ n mod 2 = 1) as [?|?] by lia; lia. }
    destruct (write_header_bad BytesIO.empty true 0 0 0 0 false 0%nat 0%nat R n)
      as (b1 & p1 & E1); [by rewrite Z.eqb_refl|].
    rewrite Z.eqb_refl in E1.
    destruct (write_header_bad b1 true (n / 2) 0 0 (n / 2 * 2) false p1 0%nat R 0)
      as (b2 & p2 & E2).
    { destruct (Z.eqb_spec (n / 2) 0) as [E|E]; [|done].
      rewrite E in Hbad'. change (0 / 2 * 2) with 0. lia. }
    unfold with_open, setsampwidth, setnchannels, setframerate, close,
      writeframes, writeframesraw, _ensure_header_written, bind, gets, modify,
      raise, ret.
    cbn. assert ((R <=? 0) = false) as -> by lia.
    assert ((R =? 0) = false) as HR0 by lia. cbn. rewrite HR0.
    fold n. change (set_framerate R _)
      with (WaveWrite BytesIO.empty true 1 2 R 0 0 0 0 false 0 0).
    rewrite E1. cbn. rewrite HR0, E2. cbn. eauto.
Qed.

Local Transparent _write_header.

Local Opaque with_open.

Lemma save_audio_raises now server_name audio R s :
  0 < py_len audio ->
  R <= 0 \/ 2 ^ 31 <= R \/ 2 ^ 32 <= py_len audio + 36 ->
  exists e, save_audio now server_name audio R 1 s = (s, Raise e).
Proof.
  intros HN Hbad. unfold save_audio.
  assert ((0 <? py_len audio) = true) as -> by lia.
  destruct (with_open_bad R audio HN Hbad) as (w & e & ->).
  by exists e.
Qed.

Local Transparent with_open.
(** C5, as the code has it.  With no audio, no file is created (whatever the
    rate).  With N > 0 bytes of audio: when 0 < R < 2^31 and N <= 2^32 - 37,
    exactly one file is written; it is named
    <server_name>_recording_<YYYYMMDD_HHMMSS>.wav and read back it declares
    1 channel, a sample width of 2 bytes, the frame rate R and a data length
    of N, followed by the N bytes of audio.  Otherwise the WAV writer raises
    and nothing is written or logged. *)
Theorem C5_save_audio_wav (now : datetime) (server_name : string)
    (audio : list byte) (R : Z) (s : server) :
  let r := save_audio now server_name audio R 1 s in
  match audio with
  | [] => snd r = Return tt /\ files (fst r) = files s
  | _ :: _ =>
      if fits_header R (py_len audio) then
        snd r = Return tt /\
        exists (stamp : string) (content : list byte),
          is_timestamp stamp = true /\
          files (fst r)
          = <[(server_name ++ "_recording_" ++ stamp ++ ".wav")%string
              := content]> (files s) /\
          WavFile.read content
          = Some (WavFile.Info (36 + py_len audio) 1 2 R (R * 2) 2
                    (py_len audio) audio)
      else exists e, r = (s, Raise e)
  end.
Proof.
  intros r. subst r. destruct audio as [|b audio].
  - by rewrite save_audio_empty.
  - set (a := b :: audio).
    assert (0 < py_len a) as HN by (unfold py_len; subst a; simpl length; lia).
    unfold fits_header.
    destruct (Z.ltb_spec 0 R) as [H1|H1]; cbn [andb];
      [destruct (Z.ltb_spec R (2 ^ 31)) as [H2|H2]; cbn [andb];
       [destruct (Z.ltb_spec (py_len a + 36) (2 ^ 32)) as [H3|H3]|]|];
      try (apply save_audio_raises; [done|lia]).
    rewrite save_audio_nonempty by (done || lia).
    split; [done|].
    exists (strftime now), (header 1 R 2 (py_len a) ++ a).
    split; [apply strftime_is_timestamp|].
    split; [done|]. apply read_written; [lia|done].
Qed.

Lemma C5_witness :
  let r := save_audio (DateTime 2025 6 7 8 9 10) "server_5555" [x01; x02; x03]
             16000 1 (Server RawPCMSerializer [] ∅) in
  snd r = Return tt /\
  exists (stamp : string) (content : list byte),
    is_timestamp stamp = true /\
    files (fst r)
    = <[("server_5555" ++ "_recording_" ++ stamp ++ ".wav")%string := content]> ∅ /\
    WavFile.read content
    = Some (WavFile.Info 39 1 2 16000 32000 2 3 [x01; x02; x03]).
Proof.
  exact (C5_save_audio_wav (DateTime 2025 6 7 8 9 10) "server_5555"
           [x01; x02; x03] 16000 (Server RawPCMSerializer [] ∅)).
Defined.

(** C5 as stated fails outside these ranges: one byte of audio at a rate of
    0, or of 2^31, and 2^32 - 36 bytes of audio at 16000 Hz each make the
    writer raise, and no file is created. *)
Lemma C5_counterexample :
  let now := DateTime 2025 6 7 8 9 10 in
  let s := Server RawPCMSerializer [] ∅ in
  save_audio now "server_5555" [x01] 0 1 s
    = (s, Raise (WaveError "sampling rate not specified")) /\
  save_audio now "server_5555" [x01] (2 ^ 31) 1 s = (s, Raise StructError) /\
  exists e,
    save_audio now "server_5555" (replicate (Z.to_nat (2 ^ 32 - 36)) x00) 16000 1 s
    = (s, Raise e).
Proof.
  split; [vm_compute; reflexivity|]. split; [vm_compute; reflexivity|].
  assert (py_len (replicate (Z.to_nat (2 ^ 32 - 36)) x00) = 2 ^ 32 - 36) as E.
  { unfold py_len. rewrite length_replicate. apply Z2Nat.id. lia. }
  apply save_audio_raises; rewrite E; lia.
Qed.

End WaveFacts.

(** ** The client streamer *)

Module ClientFacts.
Import Client.

Section Invariants.

Variable I : client -> Prop.
Hypothesis preserved : forall ev c c', I c -> step ev c = Some c' -> I c'.

Lemma run_invariant evs : forall c c', I c -> run evs c = Some c' -> I c'.
Proof.
  induction evs as [|ev evs IH]; intros c c' Hc H; simpl in H.
  - by inversion H; subst.
  - destruct (step ev c) as [c1|] eqn:E; [|done]. eauto.
Qed.

End Invariants.

(** [safe_put] never raises: a full queue is left alone, otherwise the item
    goes to the tail. *)
Lemma safe_put_spec item q :
  safe_put item q
  = if Queue.full q then (q, Return tt)
    else (Queue.Make (Queue.maxsize q) (Queue.items q ++ [item])
            (Queue.unfinished_tasks q + 1), Return tt).
Proof.
  unfold safe_put, Queue.put_nowait, bind, gets, modify, ret, raise.
  cbv beta. destruct (Queue.full q) eqn:E; cbn [negb]; cbv beta; [done|].
  by rewrite E.
Qed.

Lemma task_done_spec q :
  0 < Queue.unfinished_tasks q ->
  Queue.task_done q
  = (Queue.Make (Queue.maxsize q) (Queue.items q) (Queue.unfinished_tasks q - 1),
     Return tt).
Proof.
  intros H. unfold Queue.task_done, bind, gets, modify, raise. cbv beta.
  by destruct (Z.leb_spec (Queue.unfinished_tasks q) 0); [lia|].
Qed.

Lemma init_invariant uri : invariant (init uri).
Proof.
  split; [by exists []|]. split; [reflexivity|done].
Qed.

(** Open the invariant of the state an event leads to. *)
Ltac open_invariant :=
  unfold invariant, fifo, tasks_counted, in_flight, mic_callback, run_posted,
    sender_finally, leave_loop, set_main;
  cbn -[safe_put Queue.task_done Queue.full].

Lemma step_invariant ev c c' : invariant c -> step ev c = Some c' -> invariant c'.
Proof.
  intros ((lost & Hacc & Hlost) & Hcnt & Hmc) H.
  destruct c as [q po st mc mn se pl so ac].
  unfold tasks_counted, fifo, in_flight in *. cbn in *.
  destruct ev as [indata ov| | | |e|m|e| |]; cbn in H.
  - (* MicCallback *)
    destruct mn; inversion H; subst; clear H. open_invariant. eauto.
  - (* LoopCallback *)
    destruct po as [|item rest]; inversion H; subst; clear H. open_invariant.
    rewrite safe_put_spec. destruct (Queue.full q); cbn.
    + rewrite app_nil_r. eauto.
    + split; [|split; [|done]].
      * exists lost. by rewrite <- !app_assoc.
      * destruct st; [| |done]; rewrite ?length_app in *; cbn [app length] in *;
          unfold chunk in *; lia.
  - (* SenderGets *)
    destruct st; try done. destruct mc; [done|].
    destruct q as [mx [|x its] un]; [done|]. cbn in *.
    inversion H; subst; clear H. open_invariant.
    split; [by exists [x]|]. split; [lia|done].
  - (* SendReturns *)
    destruct st as [|data|]; try done. destruct mc; [done|].
    inversion H; subst; clear H. open_invariant.
    rewrite task_done_spec by (cbn in *; lia).
    destruct q as [mx its un]. cbn in *.
    split; [|split; [lia|done]].
    exists []. by rewrite <- app_assoc.
  - (* SendRaises *)
    destruct st as [|data|]; try done. destruct mc; [done|].
    inversion H; subst; clear H. open_invariant.
    rewrite task_done_spec by (cbn in *; lia).
    destruct q as [mx its un]. cbn in *.
    split; [|done]. exists [data]. split; [done|cbn; lia].
  - (* RecvReturns *)
    destruct mn; try done.
    destruct m as [[|b0 b]|t];
      try (inversion H; subst; clear H; open_invariant; by eauto).
    match type of H with (if ?x then _ else _) = _ => destruct x end;
      inversion H; subst; clear H; open_invariant;
      split; eauto; done.
  - (* RecvRaises *)
    destruct mn; try done.
    destruct e; inversion H; subst; clear H; open_invariant;
      split; eauto; done.
  - (* SenderCancelled *)
    destruct mc; [|done]. destruct st as [|data|]; try done.
    + inversion H; subst; clear H. open_invariant.
      split; [exists []; split; [done|cbn; lia]|done].
    + inversion H; subst; clear H. open_invariant.
      rewrite task_done_spec by (cbn in *; lia).
      destruct q as [mx its un]. cbn in *.
      split; [|done]. exists [data]. split; [done|cbn; lia].
  - (* JoinResumes *)
    destruct mn; try done. destruct st as [| |e]; try done.
    destruct e; inversion H; subst; clear H; open_invariant;
      split; eauto; done.
Qed.

Lemma reachable_invariant uri evs c :
  run evs (init uri) = Some c -> invariant c.
Proof.
  apply (run_invariant invariant step_invariant). apply init_invariant.
Qed.

(** The chunks of a queue go out in queue order, one at a time. *)
Lemma drain_ok n : forall c,
  sender_task c = AtGet -> must_cancel c = false -> tasks_counted c ->
  length (Queue.items (queue c)) = n ->
  exists c', run (drain n) c = Some c' /\
    sent c' = sent c ++ Queue.items (queue c) /\
    Queue.items (queue c') = [] /\ accepted c' = accepted c /\
    sender_task c' = AtGet.
Proof.
  unfold drain.
  induction n as [|n IH]; intros c Hs Hm Hc Hn.
  - exists c. destruct (Queue.items (queue c)) eqn:E; [|done].
    cbn. by rewrite app_nil_r.
  - destruct c as [[mx its un] po st mc mn se pl so ac].
    cbn in Hs, Hm, Hn. subst st mc.
    destruct its as [|x its]; [done|].
    unfold tasks_counted, in_flight in Hc. cbn in Hc.
    cbn [replicate concat app run step]. cbn.
    unfold sender_finally. cbn -[Queue.task_done].
    rewrite task_done_spec by (cbn; lia). cbn.
    edestruct (IH (Client (Queue.Make mx its (un - 1)) po AtGet false mn
                     (se ++ [x]) pl so ac)) as (c' & Hr & H1 & H2 & H3 & H4);
      try done.
    { unfold tasks_counted, in_flight. cbn. lia. }
    { cbn in *. lia. }
    exists c'. cbn in *. rewrite <- app_assoc in H1. done.
Qed.




(** C3, as the code has it.  The capture callback touches neither the queue
    nor anything it could wait on: it prints "Audio buffer overflow!" exactly
    when the audio status reports an input overflow, and posts the copied
    chunk to the event loop.  When the loop runs the posted call, a full queue
    drops the chunk and prints nothing; otherwise the chunk goes to the tail of
    the queue.  Neither step raises or waits. *)
Theorem C3_capture_drop_on_full (c : client) (indata : chunk)
    (input_overflow : bool) (item : chunk) (rest : list chunk) :
  main c = AtRecv -> posted c = item :: rest ->
  (exists c1, step (MicCallback indata input_overflow) c = Some c1 /\
     queue c1 = queue c /\ posted c1 = posted c ++ [indata] /\
     stdout c1 = stdout c
                 ++ (if input_overflow then ["Audio buffer overflow!"] else [])) /\
  (exists c2, step LoopCallback c = Some c2 /\
     snd (safe_put item (queue c)) = Return tt /\
     stdout c2 = stdout c /\ posted c2 = rest /\
     Queue.items (queue c2)
     = if Queue.full (queue c) then Queue.items (queue c)
       else Queue.items (queue c) ++ [item]).
Proof.
  intros Hm Hp. split.
  - exists (mic_callback indata input_overflow c). cbn. by rewrite Hm.
  - exists (run_posted item rest c). cbn -[safe_put Queue.full run_posted].
    rewrite Hp. unfold run_posted. cbn -[safe_put Queue.full].
    rewrite !safe_put_spec. by destruct (Queue.full (queue c)).
Qed.

Lemma C3_witness :
  let c := mic_callback [x09] false (init "ws://h") in
  (exists c1, step (MicCallback [x01; x02] true) c = Some c1 /\
     queue c1 = queue c /\ posted c1 = posted c ++ [[x01; x02]] /\
     stdout c1 = stdout c ++ ["Audio buffer overflow!"]) /\
  (exists c2, step LoopCallback c = Some c2 /\
     snd (safe_put [x09] (queue c)) = Return tt /\
     stdout c2 = stdout c /\ posted c2 = [] /\
     Queue.items (queue c2) = [[x09]]).
Proof.
  apply (C3_capture_drop_on_full (mic_callback [x09] false (init "ws://h"))
           [x01; x02] true [x09] []); reflexivity.
Defined.

(** C3 as stated fails: with the queue full and no input overflow reported,
    the chunk is dropped and nothing at all is printed. *)
Lemma C3_counterexample :
  exists c c',
    run (capture 100 [x00]) (init "ws://localhost:8765/ws") = Some c /\
    Queue.full (queue c) = true /\
    run [MicCallback [x07] false; LoopCallback] c = Some c' /\
    Queue.items (queue c') = Queue.items (queue c) /\
    accepted c' = accepted c /\
    stdout c' = stdout c.
Proof.
  eexists. eexists.
  split; [vm_compute; reflexivity|].
  split; [vm_compute; reflexivity|].
  split; [vm_compute; reflexivity|].
  repeat split.
Qed.

(** Case analysis on every test an event makes. *)
Ltac split_step H :=
  repeat match type of H with
  | context [match ?x with _ => _ end] => destruct x eqn:?; try discriminate H
  end.

Lemma joined_step ev c c' : joined c -> step ev c = Some c' -> joined c'.
Proof.
  destruct c as [q po st mc mn se pl so ac]. unfold joined. cbn.
  intros J H.
  destruct mn; [done| | |].
  - (* at the join *)
    destruct ev; cbn in H; unfold sender_finally in H; cbn in H;
      split_step H; inversion H; subst; clear H; cbn; try done.
    all: by match goal with e : exn |- _ => destruct e end.
  - (* returned: the sender is done, nothing moves the main task *)
    subst st.
    destruct ev; cbn in H; split_step H; inversion H; subst; clear H; done.
  - (* raised *)
    destruct J as [-> Hne].
    destruct ev; cbn in H; split_step H; inversion H; subst; clear H; done.
Qed.

Lemma cancelling_step ev c c' :
  invariant c -> cancelling c -> step ev c = Some c' -> cancelling c'.
Proof.
  intros (_ & Hcnt & _) K H.
  destruct c as [q po st mc mn se pl so ac].
  unfold cancelling, tasks_counted, in_flight in *. cbn in *.
  destruct K as [(-> & -> & Hs)|(-> & Hm)].
  - (* the cancellation is on its way *)
    destruct ev; cbn in H; try discriminate H.
    + destruct po; inversion H; subst; clear H. cbn. by left.
    + destruct st; try discriminate H.
    + destruct st; try discriminate H.
    + destruct st; try discriminate H.
    + destruct st as [|data|]; try discriminate H.
      * inversion H; subst; clear H. cbn. right. eauto.
      * unfold sender_finally in H. cbn -[Queue.task_done] in H.
        rewrite task_done_spec in H by (rewrite Hcnt; cbn; lia).
        inversion H; subst; clear H. cbn. right. eauto.
    + destruct st; try discriminate H. done.
  - (* the sender has ended by the cancellation *)
    destruct ev; cbn in H; split_step H; inversion H; subst; clear H; cbn;
      try (right; split; [done|]); eauto;
      destruct Hm; try done; subst; cbn; eauto.
Qed.

Lemma run_joined evs : forall c c', joined c -> run evs c = Some c' -> joined c'.
Proof. apply run_invariant. intros ev c c'. apply joined_step. Qed.

Lemma run_cancelling evs : forall c c',
  invariant c /\ cancelling c -> run evs c = Some c' ->
  invariant c' /\ cancelling c'.
Proof.
  apply run_invariant. intros ev c c' [Hi Hk] H.
  split; [by eapply step_invariant|by eapply cancelling_step].
Qed.

Lemma leave_loop_step e c :
  main c = AtRecv -> quiet_exit e = true ->
  exists msgs, step (RecvRaises e) c = Some (leave_loop msgs c).
Proof.
  intros Hm He. cbn. rewrite Hm.
  destruct e; try discriminate He; eauto.
Qed.

(** The events of [shutdown] can always happen, and end the function. *)
Lemma shutdown_runs msgs c :
  tasks_counted c ->
  exists c2, run (shutdown (leave_loop msgs c)) (leave_loop msgs c) = Some c2 /\
    match sender_task c with
    | Finished x => sender_task c2 = Finished x /\ main c2 = join_result x
    | _ => sender_task c2 = Finished CancelledError /\ main c2 = Returned
    end.
Proof.
  intros Hcnt. destruct c as [q po st mc mn se pl so ac].
  unfold shutdown, leave_loop, tasks_counted, in_flight in *. cbn in *.
  destruct st as [|data|x]; cbn.
  - eexists. split; [reflexivity|]. done.
  - unfold sender_finally. cbn -[Queue.task_done].
    rewrite task_done_spec by (rewrite Hcnt; cbn; lia). cbn.
    eexists. split; [reflexivity|]. done.
  - eexists. split; [reflexivity|]. done.
Qed.

(** C7, as the code has it: when the receive loop ends because the server
    closed the connection cleanly, or by cancellation, or by a keyboard
    interrupt, the loop is left without an error and [sender_task.cancel()]
    is called.  From there the function can always finish, and whenever it
    has finished the sender task is done.  A sender that was still running
    ends by the cancellation, which is swallowed: the function returns.  A
    sender that had already ended is not cancelled, and the error it ended
    with is raised again by [await sender_task] unless it is the
    cancellation: the function raises. *)
Theorem C7_loop_exit_joins_sender (uri : string) (evs0 : list event)
    (c : client) (e : exn) :
  run evs0 (init uri) = Some c ->
  main c = AtRecv ->
  quiet_exit e = true ->
  exists c1,
    step (RecvRaises e) c = Some c1 /\
    main c1 = AtJoin /\
    must_cancel c1 = negb (is_finished (sender_task c)) /\
    (forall evs c2, run evs c1 = Some c2 ->
       joined c2 /\ (is_finished (sender_task c) = false -> cancelling c2)) /\
    (exists c2, run (shutdown c1) c1 = Some c2 /\
       match sender_task c with
       | Finished x => sender_task c2 = Finished x /\ main c2 = join_result x
       | _ => sender_task c2 = Finished CancelledError /\ main c2 = Returned
       end).
Proof.
  intros Hr Hm He.
  pose proof (reachable_invariant _ _ _ Hr) as Hinv.
  destruct (leave_loop_step e c Hm He) as [msgs Hs].
  exists (leave_loop msgs c). split; [done|]. split; [done|]. split; [done|].
  split.
  - intros evs c2 H2. split.
    + by apply (run_joined evs (leave_loop msgs c)).
    + intros Ha.
      apply (run_cancelling evs (leave_loop msgs c)); [|done].
      split; [by eapply step_invariant|].
      left. unfold leave_loop. cbn. by rewrite Ha.
  - apply shutdown_runs. by destruct Hinv as (_ & ? & _).
Qed.

Lemma C7_witness :
  let evs0 := [MicCallback [x01] false; LoopCallback; SenderGets;
               RecvReturns (Binary [x05; x06])] in
  exists c, run evs0 (init "ws://h") = Some c /\
    exists c1,
      step (RecvRaises ConnectionClosedOK) c = Some c1 /\
      main c1 = AtJoin /\
      must_cancel c1 = negb (is_finished (sender_task c)) /\
      (forall evs c2, run evs c1 = Some c2 ->
         joined c2 /\ (is_finished (sender_task c) = false -> cancelling c2)) /\
      (exists c2, run (shutdown c1) c1 = Some c2 /\
         match sender_task c with
         | Finished x => sender_task c2 = Finished x /\ main c2 = join_result x
         | _ => sender_task c2 = Finished CancelledError /\ main c2 = Returned
         end).
Proof.
  intros evs0. eexists. split; [vm_compute; reflexivity|].
  apply (C7_loop_exit_joins_sender "ws://h" evs0); reflexivity.
Defined.

(** C7 as stated fails when the sender has ended before the loop is left.
    The server closes the connection cleanly while a send is under way: the
    send raises [ConnectionClosedOK], which ends the sender, then [recv]
    raises the same and the loop is left without an error.  [cancel()] does
    nothing to a task that is done, so the sender is not cancelled, and
    [await sender_task] raises its [ConnectionClosedOK] again, which is not
    suppressed: [audio_stream] raises instead of returning. *)
Lemma C7_counterexample :
  let evs := [MicCallback [x01; x02] false; LoopCallback; SenderGets;
              SendRaises ConnectionClosedOK; RecvRaises ConnectionClosedOK] in
  exists c1 c2,
    run evs (init "ws://h") = Some c1 /\
    main c1 = AtJoin /\ must_cancel c1 = false /\
    sender_task c1 = Finished ConnectionClosedOK /\
    step SenderCancelled c1 = None /\
    run (shutdown c1) c1 = Some c2 /\
    main c2 = Raised ConnectionClosedOK /\ main c2 <> Returned /\
    sender_task c2 = Finished ConnectionClosedOK /\
    sender_task c2 <> Finished CancelledError.
Proof. do 2 eexists. vm_compute. repeat split; done. Qed.

End ClientFacts.

(** ** More on the frame codec *)

Module CodecMore.
Import Bot CodecFacts.

Lemma eq_str_true v lit : eq_str v lit = true -> v = Some (PyStr lit).
Proof.
  destruct v as [[| | | | |t| |]|]; try done. simpl.
  by destruct (String.eqb_spec t lit) as [->|].
Qed.

Lemma dict_get_default_twice d k x :
  dict_get_default d k (dict_get_default d k x) = dict_get_default d k x.
Proof. unfold dict_get_default. by destruct (dict_get d k). Qed.

(** Every way [deserialize] can end, by the payload. *)
Lemma deserialize_cases py data s :
  (exists k a, data = binary k a /\
     deserialize py data s
     = (s, Return (Some (InputAudioRawFrame a (sample_rate_of s) (channels_of s)))))
  \/ (exists text d, data = PStr text /\ Json.loads py text = Return (PyDict d) /\
        dict_get d "type" = Some (PyStr "start") /\
        let sr := dict_get_default d "audio_in_sample_rate" (sample_rate_of s) in
        let ch := dict_get_default d "audio_in_channels" (channels_of s) in
        deserialize py data s
        = (Server (Serializer sr ch) (logged s) (files s),
           Return (Some (Start (StartFrame sr ch)))))
  \/ (exists text v, data = PStr text /\ Json.loads py text = Return v /\
        is_dict v = false /\ deserialize py data s = (s, Raise AttributeError))
  \/ (exists text e, data = PStr text /\ Json.loads py text = Raise e /\
        (e = RecursionError \/ e = ValueError) /\
        deserialize py data s = (s, Raise e))
  \/ deserialize py data s = (s, Return None).
Proof.
  destruct data as [b|b|text|].
  - left. by exists false, b.
  - left. by exists true, b.
  - destruct (JsonFacts.loads_cases py text) as [[v Hv]|[Hv|[Hv|Hv]]].
    + destruct (is_dict v) eqn:Hd.
      * destruct v as [| | | | | | |d]; try done.
        rewrite (deserialize_dict py s text d Hv).
        destruct (eq_str (dict_get d "type") "start") eqn:Ht.
        -- right. left. exists text, d. apply eq_str_true in Ht. done.
        -- by do 4 right.
      * right. right. left. exists text, v.
        by rewrite (deserialize_non_dict py s text v Hv Hd).
    + do 4 right. by apply deserialize_malformed.
    + do 3 right. left. exists text, RecursionError.
      rewrite (deserialize_raises py s text _ Hv); [auto|done].
    + do 3 right. left. exists text, ValueError.
      rewrite (deserialize_raises py s text _ Hv); [auto|done].
  - by do 4 right.
Qed.

(** X1: decoding and encoding compose.  The frame built from a binary
    payload is serialized back to exactly the payload's bytes.  The wire
    carries no tags: the audio of a frame that was serialized comes back
    unchanged but tagged with the reader's negotiated parameters, whatever the
    frame's own were.  Start frames and other frames are never put on the
    wire. *)
Theorem X1_decode_encode_round_trip (py : interpreter) (s s' : server)
    (as_bytearray : bool)
    (b : list byte) (sr ch : pyval) (sf : start_frame) (name : string) :
  (exists g, snd (deserialize py (binary as_bytearray b) s) = Return (Some g) /\
     snd (serialize g s') = Return (Some b)) /\
  (snd (serialize (OutputAudioRawFrame b sr ch) s) = Return (Some b) /\
   snd (deserialize py (PBytes b) s')
   = Return (Some (InputAudioRawFrame b (sample_rate_of s') (channels_of s')))) /\
  serialize (Start sf) s = (s, Return None) /\
  serialize (OtherFrame name) s = (s, Return None).
Proof.
  split; [|done]. rewrite deserialize_binary. by eexists.
Qed.


(** X3: a payload that arrives twice does no more than once: deserializing
    it again gives the same frame and the same state (a repeated start-control
    message is harmless). *)
Theorem X3_deserialize_idempotent (py : interpreter) (data : payload)
    (s : server) :
  deserialize py data (fst (deserialize py data s)) = deserialize py data s.
Proof.
  destruct (deserialize_cases py data s)
    as [(k & a & -> & E)|[(text & d & -> & Hl & Ht & E)
       |[(text & v & -> & Hl & Hd & E)|[(text & e & -> & Hl & He & E)|E]]]];
    cbv zeta in *; rewrite E; cbn [fst]; try done.
  rewrite (deserialize_dict py _ text d Hl), Ht. cbn [eq_str String.eqb].
  cbv zeta. unfold sample_rate_of, channels_of. cbn [self _sample_rate _channels logged files].
  by rewrite !dict_get_default_twice.
Qed.

(** X4: a start-control message that [json.loads] decodes is taken at its
    word.  Whatever values the decoded object holds under
    audio_in_sample_rate and audio_in_channels (a string, null, a list:
    nothing is validated) become the parameters, a missing key keeps the
    current value, and every binary payload deserialized afterwards, until
    something renegotiates, carries exactly these values. *)
Theorem X4_start_values_verbatim (py : interpreter) (s : server)
    (text : string)
    (d : list (string * pyval)) (cs : list call) (as_bytearray : bool)
    (b : list byte) :
  Json.loads py text = Return (PyDict d) ->
  dict_get d "type" = Some (PyStr "start") ->
  forallb (fun c => negb (renegotiates py c)) cs = true ->
  let s2 := fst (session py cs (fst (deserialize py (PStr text) s))) in
  deserialize py (binary as_bytearray b) s2
  = (s2, Return (Some (InputAudioRawFrame b
       (dict_get_default d "audio_in_sample_rate" (sample_rate_of s))
       (dict_get_default d "audio_in_channels" (channels_of s))))).
Proof.
  intros Hl Ht Hcs s2. rewrite deserialize_binary.
  unfold sample_rate_of, channels_of at 1 2. subst s2.
  rewrite (session_keeps_self py cs _ Hcs).
  by rewrite (deserialize_dict _ _ _ _ Hl), Ht.
Qed.

Lemma X4_witness :
  let s := Server RawPCMSerializer [] ∅ in
  let text := Json.dq "{'type':'start','audio_in_channels':'two'}" in
  let s2 := fst (session cpython [Deserialize (PStr "oops")]
                   (fst (deserialize cpython (PStr text) s))) in
  deserialize cpython (binary false [x01; x02]) s2
  = (s2, Return (Some (InputAudioRawFrame [x01; x02] (PyInt 16000) (PyStr "two")))).
Proof.
  apply (X4_start_values_verbatim cpython (Server RawPCMSerializer [] ∅)
           (Json.dq "{'type':'start','audio_in_channels':'two'}")
           [("type", PyStr "start"); ("audio_in_channels", PyStr "two")]
           [Deserialize (PStr "oops")]); reflexivity.
Defined.

(** A start-control message is not decoded when its sample rate is written
    with more digits than the interpreter converts: [json.loads] raises
    [ValueError], [deserialize] lets it through, and the parameters stay. *)
Lemma start_with_long_integer_raises :
  let text := (Json.dq "{'type':'start','audio_in_sample_rate':"
               ++ Json.ones 5000 ++ "}")%string in
  Json.loads cpython text = Raise ValueError /\
  deserialize cpython (PStr text) (Server RawPCMSerializer [] ∅)
  = (Server RawPCMSerializer [] ∅, Raise ValueError).
Proof. vm_compute. split; reflexivity. Qed.

Lemma setup_spec f s :
  setup f s
  = (Server (Serializer (py_or (audio_in_sample_rate f) (sample_rate_of s))
               (channels_of s)) (logged s) (files s), Return tt).
Proof. reflexivity. Qed.

Lemma py_or_same v : py_or v v = v.
Proof. unfold py_or. by destruct (truthy v). Qed.

(** X5: [setup] and [deserialize] agree.  Handing the start frame that
    [deserialize] emitted to [setup] changes nothing; [setup] never raises,
    never changes the channel count (the frame's audio_in_channels is
    ignored) and a second [setup] with the same frame changes nothing more. *)
Theorem X5_setup_of_emitted_start_frame (py : interpreter) (s : server)
    (text : string)
    (sf : start_frame) :
  snd (deserialize py (PStr text) s) = Return (Some (Start sf)) ->
  let s1 := fst (deserialize py (PStr text) s) in
  setup sf s1 = (s1, Return tt) /\
  (forall f s0, snd (setup f s0) = Return tt /\
     channels_of (fst (setup f s0)) = channels_of s0 /\
     setup f (fst (setup f s0)) = setup f s0).
Proof.
  intros H s1. split.
  - subst s1.
    destruct (deserialize_cases py (PStr text) s)
      as [(k & a & E0 & E)|[(t & d & E0 & Hl & Ht & E)
         |[(t & v & E0 & Hl & Hd & E)|[(t & e & E0 & Hl & He & E)|E]]]];
      cbv zeta in *; rewrite E in *; cbn in H; try done.
    inversion H; subst sf. cbn [fst]. rewrite setup_spec. cbn.
    by rewrite py_or_same.
  - intros f s0. rewrite !setup_spec. cbn. repeat split.
    unfold py_or. by destruct (truthy (audio_in_sample_rate f)) eqn:E; rewrite ?E.
Qed.

Lemma X5_witness :
  let s := Server RawPCMSerializer [] ∅ in
  let s1 := fst (deserialize cpython (PStr start_8000_mono) s) in
  setup (StartFrame (PyInt 8000) (PyInt 1)) s1 = (s1, Return tt) /\
  (forall f s0, snd (setup f s0) = Return tt /\
     channels_of (fst (setup f s0)) = channels_of s0 /\
     setup f (fst (setup f s0)) = setup f s0).
Proof.
  apply (X5_setup_of_emitted_start_frame cpython (Server RawPCMSerializer [] ∅)
           start_8000_mono (StartFrame (PyInt 8000) (PyInt 1))).
  reflexivity.
Defined.

End CodecMore.

(** ** More on the WAV dump *)

Module WaveMore.
Import Struct Wave Bot WaveFacts.

Section AnyChannelCount.

Variables (C R : Z).
Hypothesis channels_ok : 1 <= C < 2 ^ 15.
Hypothesis rate_ok : 0 < R < 2 ^ 32.
Hypothesis byte_rate_ok : C * R * 2 < 2 ^ 32.

Lemma write_header_channels n :
  0 <= n -> n + 36 < 2 ^ 32 ->
  _write_header n (WaveWrite BytesIO.empty true C 2 R 0 0 0 0 false 0 0)
  = (WaveWrite (BytesIO.Make (header C R 2 (n / (C * 2) * C * 2)) 44) true C 2 R
       (n / (C * 2)) 0 0 (n / (C * 2) * C * 2) true 4 40, Return tt).
Proof.
  intros Hn Hn'.
  assert (0 <= n / (C * 2) * C * 2 <= n) as Hdl.
  { pose proof (Z.mul_div_le n (C * 2) ltac:(lia)).
    pose proof (Z.div_pos n (C * 2) Hn ltac:(lia)). nia. }
  unfold _write_header, pack_header, bind, gets, modify, raise, ret, lift,
    file_write, file_tell.
  cbn -[Z.mul Z.div Z.add pack_L pack_H header le_bytes].
  change (2 * 8) with 16.
  rewrite !pack_L_ok by lia.
  rewrite !pack_H_ok by (unfold WAVE_FORMAT_PCM; lia).
  reflexivity.
Qed.

Local Opaque _write_header.

Lemma writeframes_channels audio :
  py_len audio + 36 < 2 ^ 32 ->
  exists w,
    writeframes audio (WaveWrite BytesIO.empty true C 2 R 0 0 0 0 false 0 0)
    = (w, Return tt) /\
    buffer w = BytesIO.Make (header C R 2 (py_len audio) ++ audio)
                 (44 + length audio) /\
    _file w = true /\ _headerwritten w = true /\
    _datalength w = py_len audio /\ _datawritten w = py_len audio.
Proof.
  intros Hn.
  assert (0 <= py_len audio) as Hn0 by (unfold py_len; lia).
  unfold writeframes, writeframesraw, _ensure_header_written, bind, gets,
    modify, raise, ret, file_write.
  cbn -[header Z.mul Z.div Z.add Z.eqb].
  assert ((C =? 0) = false) as -> by lia.
  assert ((R =? 0) = false) as -> by lia.
  change (2 =? 0) with false. cbv iota.
  rewrite write_header_channels by lia. cbn -[header Z.mul Z.div Z.add Z.eqb].
  unfold on_buffer. cbn [buffer]. rewrite write_at_end by reflexivity.
  cbn [BytesIO.buf]. rewrite header_length.
  cbn -[header Z.mul Z.div Z.add Z.eqb].
  set (n := py_len audio). fold n in Hn, Hn0.
  rewrite ?Z.add_0_l.
  destruct (Z.eqb_spec (n / (C * 2) * C * 2) n) as [E|E];
    cbn -[header Z.mul Z.div Z.add Z.eqb].
  - eexists. split; [reflexivity|]. cbn. by rewrite E.
  - unfold _patchheader, bind, gets, modify, raise, ret, lift, file_write,
      file_tell, file_seek.
    cbn -[header Z.mul Z.div Z.add pack_L Z.eqb].
    destruct (Z.eqb_spec n (n / (C * 2) * C * 2)) as [E'|_]; [by symmetry in E'|].
    rewrite !pack_L_ok by lia.
    eexists. split; [reflexivity|]. cbn. done.
Qed.

Local Transparent _write_header.

Local Opaque writeframes.

Lemma with_open_channels audio :
  py_len audio + 36 < 2 ^ 32 ->
  exists w,
    with_open BytesIO.empty
      (bind (setsampwidth 2) (fun _ =>
       bind (setnchannels C) (fun _ =>
       bind (setframerate R) (fun _ => writeframes audio))))
    = (w, Return tt) /\
    BytesIO.getvalue (buffer w) = header C R 2 (py_len audio) ++ audio.
Proof.
  intros Hn.
  destruct (writeframes_channels audio Hn) as (w & Hw & Hb & Hf & Hh & Hl & Hd).
  unfold with_open, setsampwidth, setnchannels, setframerate, bind, gets,
    modify, raise.
  cbn -[header Z.mul Z.div Z.add Z.ltb Z.leb].
  assert ((C <? 1) = false) as -> by lia.
  assert ((R <=? 0) = false) as -> by lia.
  cbn -[header Z.mul Z.div Z.add].
  change (set_framerate R _)
    with (WaveWrite BytesIO.empty true C 2 R 0 0 0 0 false 0 0).
  rewrite Hw.
  unfold close, _ensure_header_written, bind, gets, ret.
  rewrite Hf, Hh, Hl, Hd, Z.eqb_refl. cbn -[header].
  eexists. split; [reflexivity|]. cbn -[header]. by rewrite Hb.
Qed.

Local Transparent writeframes.

Lemma read_channels audio :
  py_len audio + 36 < 2 ^ 32 ->
  WavFile.read (header C R 2 (py_len audio) ++ audio)
  = Some (WavFile.Info (36 + py_len audio) C 2 R (C * R * 2) (C * 2)
            (py_len audio) audio).
Proof.
  intros Hn.
  assert (0 <= py_len audio) as Hn0 by (unfold py_len; lia).
  set (n := py_len audio) in *.
  unfold WavFile.read.
  change (WavFile.tag 0 "RIFF" (header C R 2 n ++ audio)) with true.
  change (WavFile.tag 8 "WAVE" (header C R 2 n ++ audio)) with true.
  change (WavFile.tag 12 "fmt " (header C R 2 n ++ audio)) with true.
  change (WavFile.tag 36 "data" (header C R 2 n ++ audio)) with true.
  change (WavFile.field 16 4 (header C R 2 n ++ audio)) with (le_bytes 4 16).
  change (WavFile.field 20 2 (header C R 2 n ++ audio)) with (le_bytes 2 1).
  change (WavFile.field 4 4 (header C R 2 n ++ audio)) with (le_bytes 4 (36 + n)).
  change (WavFile.field 22 2 (header C R 2 n ++ audio)) with (le_bytes 2 C).
  change (WavFile.field 34 2 (header C R 2 n ++ audio)) with (le_bytes 2 (2 * 8)).
  change (WavFile.field 24 4 (header C R 2 n ++ audio)) with (le_bytes 4 R).
  change (WavFile.field 28 4 (header C R 2 n ++ audio))
    with (le_bytes 4 (C * R * 2)).
  change (WavFile.field 32 2 (header C R 2 n ++ audio)) with (le_bytes 2 (C * 2)).
  change (WavFile.field 40 4 (header C R 2 n ++ audio)) with (le_bytes 4 n).
  change (drop 44 (header C R 2 n ++ audio)) with audio.
  rewrite !le_int_le_bytes by (simpl Z.of_nat; lia).
  reflexivity.
Qed.

End AnyChannelCount.

Local Opaque with_open.

Lemma save_audio_channels now server_name audio R C s :
  1 <= C < 2 ^ 15 -> 0 < R < 2 ^ 32 -> C * R * 2 < 2 ^ 32 ->
  0 < py_len audio -> py_len audio + 36 < 2 ^ 32 ->
  save_audio now server_name audio R C s
  = (Server (self s)
       (logged s ++ [LoguruInfo ("Merged audio saved to "
                                 ++ recording_name server_name now)%string])
       (<[recording_name server_name now := header C R 2 (py_len audio) ++ audio]>
          (files s)),
     Return tt).
Proof.
  intros HC HR HB HN HN'. unfold save_audio.
  assert ((0 <? py_len audio) = true) as -> by lia.
  destruct (with_open_channels C R HC HR HB audio HN') as (w & -> & Hb).
  unfold bind, write_file, log, modify. cbn -[header]. by rewrite Hb.
Qed.

Local Transparent with_open.

(** A channel count below one is refused by the writer. *)
Lemma save_audio_no_channels now server_name audio R C s :
  0 < py_len audio -> C < 1 ->
  exists e, save_audio now server_name audio R C s = (s, Raise e).
Proof.
  intros HN HC. unfold save_audio.
  assert ((0 <? py_len audio) = true) as -> by lia.
  unfold with_open, setsampwidth, setnchannels, setframerate, close,
    _ensure_header_written, bind, gets, modify, raise, ret.
  cbn -[Z.ltb]. assert ((C <? 1) = true) as -> by lia. cbn. eauto.
Qed.

Lemma digit_inj a b : digit a = digit b -> a mod 10 = b mod 10.
Proof.
  unfold digit, Json.chr. intros H.
  pose proof (Z.mod_pos_bound a 10 ltac:(lia)).
  pose proof (Z.mod_pos_bound b 10 ltac:(lia)).
  apply (f_equal N_of_ascii) in H.
  rewrite !N_ascii_embedding in H by lia. lia.
Qed.

Lemma two_digits a : 0 <= a < 100 -> a = (a / 10) mod 10 * 10 + a mod 10.
Proof. intros H. Z.to_euclidean_division_equations. lia. Qed.

Lemma four_digits a :
  0 <= a < 10000 ->
  a = (a / 1000) mod 10 * 1000 + (a / 100) mod 10 * 100
      + (a / 10) mod 10 * 10 + a mod 10.
Proof. intros H. Z.to_euclidean_division_equations. lia. Qed.
Lemma pad2_inj a b : 0 <= a < 100 -> 0 <= b < 100 -> pad2 a = pad2 b -> a = b.
Proof.
  intros Ha Hb H. unfold pad2 in H. injection H as H1 H2.
  apply digit_inj in H1, H2.
  rewrite (two_digits a Ha), (two_digits b Hb). lia.
Qed.

Lemma pad4_inj a b :
  0 <= a < 10000 -> 0 <= b < 10000 -> pad4 a = pad4 b -> a = b.
Proof.
  intros Ha Hb H. unfold pad4, pad2 in H. injection H as H1 H2 H3 H4.
  apply digit_inj in H1, H2, H3, H4.
  rewrite (four_digits a Ha), (four_digits b Hb). lia.
Qed.

Lemma append_inv_head (p a b : string) : (p ++ a = p ++ b)%string -> a = b.
Proof.
  induction p as [|c p IH]; cbn [String.append]; intros H; [done|].
  injection H as H. auto.
Qed.

(** Two calendar times with the same stamp are the same time ... *)
Lemma strftime_inj a b :
  calendar_time a -> calendar_time b -> strftime a = strftime b -> a = b.
Proof.
  intros (Ya & Ma & Da & ha & ma & sa) (Yb & Mb & Db & hb & mb & sb) H.
  destruct a as [y1 m1 d1 h1 i1 s1], b as [y2 m2 d2 h2 i2 s2].
  cbn [year month day hour minute second] in *.
  unfold strftime in H. cbn [year month day hour minute second] in H.
  assert (pad4 y1 = pad4 y2 /\ pad2 m1 = pad2 m2 /\ pad2 d1 = pad2 d2 /\
          pad2 h1 = pad2 h2 /\ pad2 i1 = pad2 i2 /\ pad2 s1 = pad2 s2)
    as (E1 & E2 & E3 & E4 & E5 & E6).
  { unfold pad4, pad2 in *. cbv [String.append] in H.
    injection H as -> -> -> -> -> -> -> -> -> -> -> -> -> ->. done. }
  apply pad4_inj in E1; [|lia..].
  apply pad2_inj in E2, E3, E4, E5, E6; [|lia..].
  by subst.
Qed.

(** ... so the recordings of one server at two times have two names. *)
Lemma recording_name_inj server_name a b :
  calendar_time a -> calendar_time b ->
  recording_name server_name a = recording_name server_name b -> a = b.
Proof.
  intros Ha Hb H. unfold recording_name in H.
  do 2 apply append_inv_head in H.
  apply (strftime_inj a b Ha Hb).
  revert H. generalize (strftime_is_timestamp a) (strftime_is_timestamp b).
  generalize (strftime a) (strftime b). intros x y Hx Hy H.
  unfold is_timestamp in Hx, Hy.
  assert (String.length x = 15%nat /\ String.length y = 15%nat) as [Lx Ly].
  { split; [destruct (Nat.eqb_spec (String.length x) 15)
           | destruct (Nat.eqb_spec (String.length y) 15)]; done. }
  clear Hx Hy.
  repeat (destruct x as [|? x]; [done|]); destruct x; [|done].
  repeat (destruct y as [|? y]; [done|]); destruct y; [|done].
  cbv [String.append] in H. by injection H as -> -> -> -> -> -> -> -> -> -> -> -> -> -> ->.
Qed.

(** X6: [save_audio] for any channel count.  With C channels
    (1 <= C < 2^15), a rate R whose byte rate 2CR fits 32 bits and N > 0 bytes
    of audio (N <= 2^32 - 37), one file is written and one line logged; read
    back, the file declares C channels, 2 bytes a sample, the rate R, a block
    of 2C bytes a frame and a data length of N, also when N is not a whole
    number of frames, and holds the audio unchanged.  The serializer is not
    touched. *)
Theorem X6_save_audio_any_channel_count (now : datetime) (server_name : string)
    (audio : list byte) (R C : Z) (s : server) :
  1 <= C < 2 ^ 15 -> 0 < R < 2 ^ 32 -> C * R * 2 < 2 ^ 32 ->
  0 < py_len audio -> py_len audio + 36 < 2 ^ 32 ->
  exists content,
    save_audio now server_name audio R C s
    = (Server (self s)
         (logged s ++ [LoguruInfo ("Merged audio saved to "
                                   ++ recording_name server_name now)%string])
         (<[recording_name server_name now := content]> (files s)),
       Return tt) /\
    WavFile.read content
    = Some (WavFile.Info (36 + py_len audio) C 2 R (C * R * 2) (C * 2)
              (py_len audio) audio).
Proof.
  intros HC HR HB HN HN'.
  exists (header C R 2 (py_len audio) ++ audio). split.
  - by apply save_audio_channels.
  - by apply read_channels.
Qed.

Lemma X6_witness :
  exists content,
    save_audio (DateTime 2025 6 7 8 9 10) "server_5555"
      [x01; x02; x03; x04; x05] 48000 2 (Server RawPCMSerializer [] ∅)
    = (Server RawPCMSerializer
         [LoguruInfo "Merged audio saved to server_5555_recording_20250607_080910.wav"]
         (<["server_5555_recording_20250607_080910.wav" := content]> ∅),
       Return tt) /\
    WavFile.read content
    = Some (WavFile.Info 41 2 2 48000 192000 4 5 [x01; x02; x03; x04; x05]).
Proof.
  apply (X6_save_audio_any_channel_count (DateTime 2025 6 7 8 9 10)
           "server_5555" [x01; x02; x03; x04; x05] 48000 2
           (Server RawPCMSerializer [] ∅)); unfold py_len; simpl; lia.
Defined.

(** X7: a channel count below one is refused: with audio to save and
    num_channels <= 0, [save_audio] raises, and no file is written and nothing
    logged. *)
Theorem X7_save_audio_refuses_no_channels (now : datetime)
    (server_name : string) (audio : list byte) (R C : Z) (s : server) :
  0 < py_len audio -> C < 1 ->
  exists e, save_audio now server_name audio R C s = (s, Raise e).
Proof. apply save_audio_no_channels. Qed.

Lemma X7_witness :
  exists e,
    save_audio (DateTime 2025 6 7 8 9 10) "server_5555" [x01; x02] 16000 0
      (Server RawPCMSerializer [] ∅)
    = (Server RawPCMSerializer [] ∅, Raise e).
Proof.
  apply X7_save_audio_refuses_no_channels; [unfold py_len; simpl; lia | lia].
Defined.

(** X8: two recordings of one server saved within the same second share
    their file name: the second replaces the first, and the files are what
    they would be had the first never been saved. *)
Theorem X8_same_second_overwrites (now : datetime) (server_name : string)
    (a1 a2 : list byte) (R : Z) (s : server) :
  0 < R < 2 ^ 31 ->
  0 < py_len a1 -> py_len a1 + 36 < 2 ^ 32 ->
  0 < py_len a2 -> py_len a2 + 36 < 2 ^ 32 ->
  let s1 := fst (save_audio now server_name a1 R 1 s) in
  let s2 := fst (save_audio now server_name a2 R 1 s1) in
  files s2 = files (fst (save_audio now server_name a2 R 1 s)) /\
  files s2 !! recording_name server_name now
  = Some (header 1 R 2 (py_len a2) ++ a2).
Proof.
  intros HR H1 H1' H2 H2' s1 s2. subst s1 s2.
  rewrite !save_audio_nonempty by done. cbn [fst files].
  split; [apply insert_insert_eq|apply lookup_insert_eq].
Qed.

Lemma X8_witness :
  let now := DateTime 2025 6 7 8 9 10 in
  let s := Server RawPCMSerializer [] ∅ in
  let s1 := fst (save_audio now "server_5555" [x01; x02] 16000 1 s) in
  let s2 := fst (save_audio now "server_5555" [x03; x04; x05; x06] 16000 1 s1) in
  files s2 = files (fst (save_audio now "server_5555" [x03; x04; x05; x06] 16000 1 s)) /\
  files s2 !! recording_name "server_5555" now
  = Some (header 1 16000 2 4 ++ [x03; x04; x05; x06]).
Proof.
  apply (X8_same_second_overwrites (DateTime 2025 6 7 8 9 10) "server_5555"
           [x01; x02] [x03; x04; x05; x06] 16000 (Server RawPCMSerializer [] ∅));
    unfold py_len; simpl; lia.
Defined.

(** X9: recordings of one server saved at different seconds never collide:
    the two names differ, and after both saves each file holds its own
    recording. *)
Theorem X9_distinct_seconds_keep_both (now1 now2 : datetime)
    (server_name : string) (a1 a2 : list byte) (R : Z) (s : server) :
  calendar_time now1 -> calendar_time now2 -> now1 <> now2 ->
  0 < R < 2 ^ 31 ->
  0 < py_len a1 -> py_len a1 + 36 < 2 ^ 32 ->
  0 < py_len a2 -> py_len a2 + 36 < 2 ^ 32 ->
  let s1 := fst (save_audio now1 server_name a1 R 1 s) in
  let s2 := fst (save_audio now2 server_name a2 R 1 s1) in
  recording_name server_name now1 <> recording_name server_name now2 /\
  files s2 !! recording_name server_name now1
    = Some (header 1 R 2 (py_len a1) ++ a1) /\
  files s2 !! recording_name server_name now2
    = Some (header 1 R 2 (py_len a2) ++ a2).
Proof.
  intros Hc1 Hc2 Hne HR H1 H1' H2 H2' s1 s2. subst s1 s2.
  assert (recording_name server_name now1 <> recording_name server_name now2)
    as Hn by (intros E; by apply Hne, (recording_name_inj server_name)).
  rewrite !save_audio_nonempty by done. cbn [fst files].
  split; [done|]. split.
  - rewrite lookup_insert_ne by done. apply lookup_insert_eq.
  - apply lookup_insert_eq.
Qed.

Lemma X9_witness :
  let now1 := DateTime 2025 6 7 8 9 10 in
  let now2 := DateTime 2025 6 7 8 9 11 in
  let s := Server RawPCMSerializer [] ∅ in
  let s1 := fst (save_audio now1 "server_5555" [x01; x02] 16000 1 s) in
  let s2 := fst (save_audio now2 "server_5555" [x03; x04] 16000 1 s1) in
  recording_name "server_5555" now1 <> recording_name "server_5555" now2 /\
  files s2 !! recording_name "server_5555" now1
    = Some (header 1 16000 2 2 ++ [x01; x02]) /\
  files s2 !! recording_name "server_5555" now2
    = Some (header 1 16000 2 2 ++ [x03; x04]).
Proof.
  apply (X9_distinct_seconds_keep_both (DateTime 2025 6 7 8 9 10)
           (DateTime 2025 6 7 8 9 11) "server_5555" [x01; x02] [x03; x04] 16000
           (Server RawPCMSerializer [] ∅));
    try (unfold calendar_time; simpl; lia);
    try (unfold py_len; simpl; lia); discriminate.
Defined.

End WaveMore.

(** ** More on the client streamer *)

Module ClientMore.
Import Client ClientFacts.

Lemma full_spec q :
  Queue.maxsize q = 100 ->
  Queue.full q = true <-> (100 <= length (Queue.items q))%nat.
Proof.
  intros Hm. unfold Queue.full, Queue.qsize. rewrite Hm. cbn.
  unfold chunk. rewrite Z.leb_le. lia.
Qed.

Lemma init_within_capacity uri : within_capacity (init uri).
Proof. split; [done|cbn; lia]. Qed.

Lemma step_within_capacity ev c c' :
  within_capacity c -> step ev c = Some c' -> within_capacity c'.
Proof.
  intros [Hm Hl] H. destruct c as [q po st mc mn se pl so ac].
  unfold within_capacity in *. cbn in *.
  destruct ev as [indata ov| | | |e|m|e| |]; cbn in H.
  - destruct mn; by inversion H; subst.
  - destruct po as [|item rest]; inversion H; subst; clear H.
    unfold run_posted. cbn -[safe_put Queue.full].
    rewrite safe_put_spec. destruct (Queue.full q) eqn:E; [done|]. cbn.
    split; [done|]. rewrite length_app. cbn.
    assert (~ (100 <= length (Queue.items q))%nat)
      by (rewrite <- full_spec by done; congruence).
    lia.
  - destruct st; try done. destruct mc; [done|].
    destruct q as [mx [|x its] un]; [done|]. cbn in *.
    inversion H; subst; clear H. cbn. split; [done|lia].
  - destruct st; try done. destruct mc; [done|].
    inversion H; subst; clear H. unfold sender_finally.
    destruct q as [mx its un]. unfold Queue.task_done, bind, gets, modify, raise.
    cbn. by destruct (un <=? 0).
  - destruct st; try done. destruct mc; [done|].
    inversion H; subst; clear H. unfold sender_finally.
    destruct q as [mx its un]. unfold Queue.task_done, bind, gets, modify, raise.
    cbn. by destruct (un <=? 0).
  - destruct mn; try done.
    destruct m as [[|b0 b]|t]; try (by inversion H; subst).
    match type of H with (if ?x then _ else _) = _ => destruct x end;
      by inversion H; subst.
  - destruct mn; try done. destruct e; by inversion H; subst.
  - destruct mc; [|done]. destruct st; try done.
    + by inversion H; subst.
    + inversion H; subst; clear H. unfold sender_finally.
      destruct q as [mx its un]. unfold Queue.task_done, bind, gets, modify, raise.
      cbn. by destruct (un <=? 0).
  - destruct mn; try done. destruct st; try done. by inversion H; subst.
Qed.

(** X10: the queue never outgrows its capacity: in every state of every run
    it holds at most 100 chunks, and a posted [safe_put] never raises
    [QueueFull]. *)
Theorem X10_queue_within_capacity (uri : string) (evs : list event)
    (c : client) :
  run evs (init uri) = Some c ->
  within_capacity c /\
  forall item, snd (safe_put item (queue c)) = Return tt.
Proof.
  intros H. split.
  - revert H. apply (run_invariant within_capacity step_within_capacity).
    apply init_within_capacity.
  - intros item. rewrite safe_put_spec. by destruct (Queue.full (queue c)).
Qed.

Lemma X10_witness :
  exists c, run (capture 150 [x00]) (init "ws://h") = Some c /\
    length (Queue.items (queue c)) = 100%nat /\
    within_capacity c /\
    forall item, snd (safe_put item (queue c)) = Return tt.
Proof.
  eexists. split; [vm_compute; reflexivity|]. split; [reflexivity|].
  apply (X10_queue_within_capacity "ws://h" (capture 150 [x00])).
  vm_compute. reflexivity.
Defined.

(** X11: the [finally: queue.task_done()] of the sender never raises: in every
    state of a run in which the sender holds a chunk, the queue counts at least
    one unfinished task, so [task_done] returns. *)
Theorem X11_task_done_never_raises (uri : string) (evs : list event)
    (c : client) (data : chunk) :
  run evs (init uri) = Some c ->
  sender_task c = AtSend data ->
  snd (Queue.task_done (queue c)) = Return tt /\
  Queue.unfinished_tasks (queue c)
  = Z.of_nat (length (Queue.items (queue c))) + 1.
Proof.
  intros H Hs. apply reachable_invariant in H as (_ & Hc & _).
  unfold tasks_counted, in_flight in Hc. rewrite Hs in Hc. cbn in Hc.
  split; [rewrite task_done_spec; [done|]|]; unfold chunk in *; lia.
Qed.

Lemma X11_witness :
  exists c, run [MicCallback [x01] false; LoopCallback; MicCallback [x02] false;
                 LoopCallback; SenderGets] (init "ws://h") = Some c /\
    Queue.items (queue c) = [[x02]] /\
    snd (Queue.task_done (queue c)) = Return tt /\
    Queue.unfinished_tasks (queue c)
    = Z.of_nat (length (Queue.items (queue c))) + 1.
Proof.
  eexists. split; [vm_compute; reflexivity|]. split; [reflexivity|].
  apply (X11_task_done_never_raises "ws://h"
           [MicCallback [x01] false; LoopCallback; MicCallback [x02] false;
            LoopCallback; SenderGets] _ [x01]); reflexivity.
Defined.

Lemma capture_each_ok cs : forall c,
  main c = AtRecv -> posted c = [] -> within_capacity c ->
  exists c', run (capture_each cs) c = Some c' /\
    Queue.items (queue c') = take 100 (Queue.items (queue c) ++ cs) /\
    accepted c'
    = accepted c ++ take (100 - length (Queue.items (queue c))) cs /\
    stdout c' = stdout c /\ sent c' = sent c /\
    sender_task c' = sender_task c.
Proof.
  induction cs as [|x cs IH]; intros c Hm Hp [Hx Hl].
  - exists c. split; [done|]. rewrite !app_nil_r, take_ge by done.
    by rewrite take_nil, app_nil_r.
  - destruct c as [q po st mc mn se pl so ac]. cbn in Hm, Hp, Hx, Hl.
    subst mn po. unfold capture_each. cbn [map concat app run step main].
    cbn [mic_callback posted app]. cbn -[safe_put Queue.full run_posted take].
    unfold run_posted. cbn -[safe_put Queue.full take].
    rewrite safe_put_spec.
    destruct (Queue.full q) eqn:E; cbn -[take].
    + apply full_spec in E; [|done].
      edestruct (IH (Client q [] st mc AtRecv se pl (so ++ []) (ac ++ [])))
        as (c' & Hr & H1 & H2 & H3 & H4 & H5); try done.
      exists c'. split; [exact Hr|]. cbn -[take] in *.
      rewrite H1, H2, H3, H4, H5, !app_nil_r.
      rewrite !take_app_le by lia.
      replace (100 - length (Queue.items q))%nat with 0%nat by lia.
      by rewrite !take_0.
    + assert (~ (100 <= length (Queue.items q))%nat) as Hlt
        by (rewrite <- full_spec by done; congruence).
      edestruct (IH (Client (Queue.Make (Queue.maxsize q) (Queue.items q ++ [x])
                               (Queue.unfinished_tasks q + 1))
                       [] st mc AtRecv se pl (so ++ []) (ac ++ [x])))
        as (c' & Hr & H1 & H2 & H3 & H4 & H5); try done.
      { split; [done|]. cbn. rewrite length_app. cbn. lia. }
      exists c'. split; [exact Hr|]. cbn -[take] in *.
      rewrite H1, H2, H3, H4, H5, !app_nil_r, <- !app_assoc. cbn [app].
      split; [done|]. split; [|done].
      rewrite length_app. cbn [length].
      replace (100 - length (Queue.items q))%nat
        with (S (100 - (length (Queue.items q) + 1)))%nat by lia.
      done.
Qed.

(** X12: when capture outruns the sender the queue keeps the oldest chunks
    and drops the newest.  For chunks captured while the loop has nothing
    posted, the queue afterwards is the first 100 of what it held followed by
    the captured chunks; the chunks that did not fit are dropped for good, and
    nothing is printed. *)
Theorem X12_overflow_drops_newest (c : client) (cs : list chunk) :
  main c = AtRecv -> posted c = [] -> within_capacity c ->
  exists c', run (capture_each cs) c = Some c' /\
    Queue.items (queue c') = take 100 (Queue.items (queue c) ++ cs) /\
    accepted c'
    = accepted c ++ take (100 - length (Queue.items (queue c))) cs /\
    stdout c' = stdout c /\ sent c' = sent c /\
    sender_task c' = sender_task c.
Proof. apply capture_each_ok. Qed.

Lemma X12_witness :
  let cs := replicate 100 [x00] ++ [[x07]; [x08]] in
  exists c', run (capture_each cs) (init "ws://h") = Some c' /\
    Queue.items (queue c') = take 100 (Queue.items (queue (init "ws://h")) ++ cs) /\
    accepted c'
    = accepted (init "ws://h")
      ++ take (100 - length (Queue.items (queue (init "ws://h")))) cs /\
    stdout c' = stdout (init "ws://h") /\ sent c' = sent (init "ws://h") /\
    sender_task c' = sender_task (init "ws://h").
Proof.
  apply (X12_overflow_drops_newest (init "ws://h")
           (replicate 100 [x00] ++ [[x07]; [x08]]));
    [reflexivity | reflexivity | split; [reflexivity | cbn; lia]].
Defined.

Lemma playback_ok ms : forall c,
  main c = AtRecv -> forallb whole_samples ms = true ->
  exists c', run (map RecvReturns ms) c = Some c' /\
    played c' = played c ++ concat (map playable ms) /\
    main c' = AtRecv /\ queue c' = queue c /\ sent c' = sent c /\
    stdout c' = stdout c /\ sender_task c' = sender_task c.
Proof.
  induction ms as [|m ms IH]; intros c Hm Hok.
  - exists c. by rewrite app_nil_r.
  - cbn [forallb] in Hok. apply andb_true_iff in Hok as [Hm1 Hms].
    destruct c as [q po st mc mn se pl so ac]. cbn in Hm. subst mn.
    cbn [map run step main].
    destruct m as [[|b0 b]|t]; cbn [whole_samples] in Hm1.
    + edestruct (IH (Client q po st mc AtRecv se pl so ac))
        as (c' & Hr & H1 & H2); try done.
      exists c'. split; [exact Hr|]. cbn in *. by rewrite H1.
    + rewrite Hm1.
      edestruct (IH (Client q po st mc AtRecv se (pl ++ [b0 :: b]) so ac))
        as (c' & Hr & H1 & H2); try done.
      exists c'. split; [exact Hr|]. cbn in *.
      by rewrite H1, <- app_assoc.
    + edestruct (IH (Client q po st mc AtRecv se pl so ac))
        as (c' & Hr & H1 & H2); try done.
      exists c'. split; [exact Hr|]. cbn in *. by rewrite H1.
Qed.

(** X13: what arrives is played in the order it arrives.  For messages that
    hold whole 16-bit samples, the receive loop writes every binary message
    that is not empty to the speaker, in order of arrival and each once; text
    messages and empty binary messages are skipped; the loop goes on, and the
    send side is not touched. *)
Theorem X13_playback_in_arrival_order (c : client) (ms : list message) :
  main c = AtRecv -> forallb whole_samples ms = true ->
  exists c', run (map RecvReturns ms) c = Some c' /\
    played c' = played c ++ concat (map playable ms) /\
    main c' = AtRecv /\ queue c' = queue c /\ sent c' = sent c /\
    stdout c' = stdout c /\ sender_task c' = sender_task c.
Proof. apply playback_ok. Qed.

Lemma X13_witness :
  let ms := [Binary [x01; x02]; Text "hello"; Binary []; Binary [x03; x04; x05; x06]] in
  exists c', run (map RecvReturns ms) (init "ws://h") = Some c' /\
    played c' = played (init "ws://h") ++ concat (map playable ms) /\
    main c' = AtRecv /\ queue c' = queue (init "ws://h") /\
    sent c' = sent (init "ws://h") /\
    stdout c' = stdout (init "ws://h") /\
    sender_task c' = sender_task (init "ws://h").
Proof.
  apply (X13_playback_in_arrival_order (init "ws://h")
           [Binary [x01; x02]; Text "hello"; Binary [];
            Binary [x03; x04; x05; x06]]); reflexivity.
Defined.

Lemma fatal_step ev e c :
  fatal ev = Some e -> main c = AtRecv -> step ev c = Some (abort e c).
Proof.
  intros Hf Hm. destruct ev as [| | | | |m|e'| |]; try done; cbn in *; rewrite Hm.
  - destruct m as [[|b0 b]|]; try done.
    destruct (Nat.even _); [done|]. by inversion Hf.
  - destruct e'; try done; by inversion Hf.
Qed.

(** Once the main task has raised, it has raised for good: nothing more is
    captured, played or printed. *)
Lemma raised_step e pl so ev c c' :
  main c = Raised e /\ played c = pl /\ stdout c = so ->
  step ev c = Some c' ->
  main c' = Raised e /\ played c' = pl /\ stdout c' = so.
Proof.
  intros (Hm & Hp & Ho) H. destruct c as [q po st mc mn se pl0 so0 ac].
  cbn in *. subst mn pl0 so0.
  destruct ev; cbn in H; unfold sender_finally in H; split_step H;
    by inversion H; subst.
Qed.

(** X14: an error in the receive loop skips the shutdown.  When [recv]
    raises anything but a clean close, a cancellation or a keyboard interrupt,
    or a binary message with an odd number of bytes arrives, [audio_stream]
    raises that error at once: nothing is played or printed for the event, the
    queue, the sender task and the chunks sent are as they were, and lines 56
    to 58 are skipped.  The outcome is final: whatever happens afterwards,
    the function has raised that error, the sender is never awaited, no
    microphone chunk is captured and nothing more is played or printed. *)
Theorem X14_loop_error_skips_shutdown (c : client) (ev : event) (e : exn) :
  main c = AtRecv ->
  fatal ev = Some e ->
  exists c1,
    step ev c = Some c1 /\ main c1 = Raised e /\
    played c1 = played c /\ stdout c1 = stdout c /\ queue c1 = queue c /\
    sender_task c1 = sender_task c /\ sent c1 = sent c /\
    (forall evs c2, run evs c1 = Some c2 ->
       main c2 = Raised e /\ played c2 = played c /\ stdout c2 = stdout c /\
       step JoinResumes c2 = None /\
       forall indata overflow, step (MicCallback indata overflow) c2 = None).
Proof.
  intros Hm Hf.
  pose proof (fatal_step ev e c Hf Hm) as Hs.
  exists (abort e c). repeat split; try done;
    assert (main c2 = Raised e /\ played c2 = played c /\ stdout c2 = stdout c)
      as (E1 & E2 & E3)
      by (revert H;
          apply (run_invariant _ (raised_step e (played c) (stdout c)));
          by repeat split);
    try done; cbn; by rewrite E1.
Qed.

Lemma X14_witness :
  let evs0 := [MicCallback [x01] false; LoopCallback; MicCallback [x02] false;
               LoopCallback; SenderGets] in
  exists c, run evs0 (init "ws://h") = Some c /\
    exists c1,
      step (RecvRaises ConnectionClosedError) c = Some c1 /\
      main c1 = Raised ConnectionClosedError /\
      played c1 = played c /\ stdout c1 = stdout c /\ queue c1 = queue c /\
      sender_task c1 = sender_task c /\ sent c1 = sent c /\
      (forall evs c2, run evs c1 = Some c2 ->
         main c2 = Raised ConnectionClosedError /\
         played c2 = played c /\ stdout c2 = stdout c /\
         step JoinResumes c2 = None /\
         forall indata overflow, step (MicCallback indata overflow) c2 = None).
Proof.
  intros evs0. eexists. split; [vm_compute; reflexivity|].
  apply X14_loop_error_skips_shutdown; reflexivity.
Defined.

Lemma ended_step e ev c c' :
  sender_task c = Finished e -> step ev c = Some c' ->
  sender_task c' = Finished e /\ sent c' = sent c.
Proof.
  intros Hs H. destruct c as [q po st mc mn se pl so ac]. cbn in *.
  subst st.
  destruct ev; cbn in H; split_step H; by inversion H; subst.
Qed.

Lemma ended_run e evs : forall c c',
  sender_task c = Finished e -> run evs c = Some c' ->
  sender_task c' = Finished e /\ sent c' = sent c.
Proof.
  induction evs as [|ev evs IH]; intros c c' Hs H; simpl in H.
  - by inversion H; subst.
  - destruct (step ev c) as [c1|] eqn:E; [|done].
    destruct (ended_step e ev c c1 Hs E) as [H1 H2].
    destruct (IH c1 c' H1 H) as [H3 H4]. split; [done|congruence].
Qed.

(** X15: a sender that has ended stays ended.  After the sender task has
    finished, by cancellation or by a failed send, no event starts it again
    and nothing more is ever sent, whatever is still captured and queued. *)
Theorem X15_ended_sender_sends_nothing (c c' : client) (e : exn)
    (evs : list event) :
  sender_task c = Finished e -> run evs c = Some c' ->
  sender_task c' = Finished e /\ sent c' = sent c.
Proof. apply ended_run. Qed.

Lemma X15_witness :
  let c := Client (Queue.Make 100 [[x02]] 1) [] (Finished ConnectionClosedError)
             false AtRecv [[x00]] [] [] [[x00]; [x01]; [x02]] in
  exists c', run [MicCallback [x03] false; LoopCallback;
                  RecvRaises ConnectionClosedOK; JoinResumes] c = Some c' /\
    Queue.items (queue c') = [[x02]; [x03]] /\
    sender_task c' = Finished ConnectionClosedError /\ sent c' = sent c.
Proof.
  intros c. eexists. split; [vm_compute; reflexivity|]. split; [reflexivity|].
  apply (X15_ended_sender_sends_nothing c _ ConnectionClosedError
           [MicCallback [x03] false; LoopCallback;
            RecvRaises ConnectionClosedOK; JoinResumes]); reflexivity.
Defined.

Lemma run_app evs1 evs2 c c1 :
  run evs1 c = Some c1 -> run (evs1 ++ evs2) c = run evs2 c1.
Proof.
  revert c. induction evs1 as [|ev evs1 IH]; intros c H; simpl in *.
  - by inversion H.
  - destruct (step ev c); [auto|done].
Qed.

(** Capture and sending leave the main task where it is; sending prints
    nothing. *)
Lemma main_kept evs : forall c c',
  Forall (fun ev => match ev with
                    | MicCallback _ _ | LoopCallback | SenderGets | SendReturns => True
                    | _ => False
                    end) evs ->
  run evs c = Some c' -> main c' = main c.
Proof.
  induction evs as [|ev evs IH]; intros c c' Hf H; simpl in H.
  - by inversion H; subst.
  - inversion Hf as [|? ? Hev Hevs]; subst.
    destruct (step ev c) as [c1|] eqn:E; [|done].
    rewrite (IH c1 c' Hevs H).
    destruct c as [q po st mc mn se pl so ac].
    destruct ev; try done; cbn in E; unfold sender_finally in E;
      split_step E; by inversion E; subst.
Qed.

Lemma stdout_kept evs : forall c c',
  Forall (fun ev => match ev with
                    | LoopCallback | SenderGets | SendReturns => True
                    | _ => False
                    end) evs ->
  run evs c = Some c' -> stdout c' = stdout c.
Proof.
  induction evs as [|ev evs IH]; intros c c' Hf H; simpl in H.
  - by inversion H; subst.
  - inversion Hf as [|? ? Hev Hevs]; subst.
    destruct (step ev c) as [c1|] eqn:E; [|done].
    rewrite (IH c1 c' Hevs H).
    destruct c as [q po st mc mn se pl so ac].
    destruct ev; try done; cbn in E; unfold sender_finally in E;
      split_step E; by inversion E; subst.
Qed.

Lemma capture_each_events cs :
  Forall (fun ev => match ev with
                    | MicCallback _ _ | LoopCallback | SenderGets | SendReturns => True
                    | _ => False
                    end) (capture_each cs).
Proof.
  induction cs as [|x cs IH]; [constructor|].
  unfold capture_each. cbn [map concat app]. by repeat constructor.
Qed.

Lemma drain_events n :
  Forall (fun ev => match ev with
                    | LoopCallback | SenderGets | SendReturns => True
                    | _ => False
                    end) (drain n).
Proof.
  induction n as [|n IH]; [constructor|].
  unfold drain. cbn [replicate concat app]. by repeat constructor.
Qed.

(** X16: a whole session in which the sender keeps up.  Up to 100 chunks are
    captured, the sender sends them, the server closes the connection cleanly
    and the function shuts down: every captured chunk has been sent, once and
    in capture order, the queue is empty, the sender has ended by the
    cancellation and [audio_stream] has returned, having printed only the
    notice of the clean close. *)
Theorem X16_session_delivers_all (uri : string) (cs : list chunk) :
  (length cs <= 100)%nat ->
  exists c,
    run (capture_each cs ++ drain (length cs)
         ++ [RecvRaises ConnectionClosedOK; SenderCancelled; JoinResumes])
      (init uri) = Some c /\
    sent c = cs /\ accepted c = cs /\ Queue.items (queue c) = [] /\
    sender_task c = Finished CancelledError /\ main c = Returned /\
    stdout c = stdout (init uri) ++ ["Server closed connection cleanly."].
Proof.
  intros Hl.
  destruct (capture_each_ok cs (init uri) eq_refl eq_refl (init_within_capacity uri))
    as (c1 & Hr1 & Hq1 & Ha1 & Ho1 & Hs1 & Ht1).
  cbn [init queue Queue.new Queue.items app accepted length] in Hq1, Ha1.
  rewrite Nat.sub_0_r in Ha1. rewrite take_ge in Hq1, Ha1 by done.
  pose proof (reachable_invariant _ _ _ Hr1) as (_ & Hcnt & Hmc).
  pose proof (main_kept _ _ _ (capture_each_events cs) Hr1) as Hm1.
  destruct (drain_ok (length cs) c1) as (c2 & Hr2 & Hs2 & Hq2 & Ha2 & Ht2);
    [by rewrite Ht1|by apply Hmc|done|by rewrite Hq1|].
  rewrite (run_app _ _ _ _ Hr1), (run_app _ _ _ _ Hr2).
  assert (main c2 = AtRecv) as Hm2.
  { rewrite (main_kept (drain (length cs)) c1 c2); [done| |done].
    eapply Forall_impl; [apply drain_events|]. by intros []. }
  pose proof (stdout_kept _ _ _ (drain_events (length cs)) Hr2) as Ho2.
  destruct c2 as [q po st mc mn se pl so ac]. cbn in *. subst.
  eexists. split; [reflexivity|]. cbn. rewrite Hs1, Ho1.
  repeat split; done.
Qed.

Lemma X16_witness :
  exists c,
    run (capture_each [[x01; x02]; [x03; x04]] ++ drain 2
         ++ [RecvRaises ConnectionClosedOK; SenderCancelled; JoinResumes])
      (init "ws://h") = Some c /\
    sent c = [[x01; x02]; [x03; x04]] /\
    accepted c = [[x01; x02]; [x03; x04]] /\ Queue.items (queue c) = [] /\
    sender_task c = Finished CancelledError /\ main c = Returned /\
    stdout c = stdout (init "ws://h") ++ ["Server closed connection cleanly."].
Proof.
  apply (X16_session_delivers_all "ws://h" [[x01; x02]; [x03; x04]]).
  cbn. lia.
Defined.

End ClientMore.
